(** * Collibra to Cosmos DB graph migration: model and verified properties

    A shallow embedding of the four Python modules of the repository:

    - [cosmosgremlinclient.py]: the Gremlin statement builder and the
      [CosmosGraphClient] operations (module [Gremlin], [Client]);
    - [collibrarestassets.py], [collibrarestrelations.py]: the two paginated
      fetchers (module [Collibra]);
    - [knowgraphcollibra.py]: the drain loop and the relation loop of the
      migration script (module [Orchestrator]).

    The two remote services are modelled explicitly: the graph store as a
    list of vertices answering the statements the client emits (module
    [Store]), the catalog as a function from requests to replies. *)

From Stdlib Require Import String Ascii List ZArith Bool Arith Lia.
From Stdlib Require Import DecimalString.
Import ListNotations.

Local Open Scope list_scope.
Local Open Scope string_scope.

(** ** Python values *)

Module Py.

(** The scalars a property mapping holds. A float is carried by the text
    Python's [str] gives it; its arithmetic is never used. *)
Inductive value :=
| VStr (s : string)
| VBool (b : bool)
| VInt (z : Z)
| VFloat (repr : string)
| VNone.

(** A Python [dict] with string keys, in insertion order. *)
Definition dict := list (string * value).

Definition value_eqb (a b : value) : bool :=
  match a, b with
  | VStr s, VStr t => String.eqb s t
  | VBool x, VBool y => Bool.eqb x y
  | VInt x, VInt y => Z.eqb x y
  | VFloat s, VFloat t => String.eqb s t
  | VNone, VNone => true
  | _, _ => false
  end.

(** [str(value)] *)
Definition str (v : value) : string :=
  match v with
  | VStr s => s
  | VBool true => "True"
  | VBool false => "False"
  | VInt z => NilZero.string_of_int (Z.to_int z)
  | VFloat repr => repr
  | VNone => "None"
  end.

(** [str(value).lower()] on the two texts [str] gives a [bool]. *)
Definition str_lower_bool (b : bool) : string :=
  if b then "true" else "false".

(** Truth value of an optional string: [None] and the empty string are
    falsy. *)
Definition truthy (s : option string) : bool :=
  match s with
  | Some (String _ _) => true
  | _ => false
  end.

(** [key in d] and [d.get(key)] *)
Fixpoint get (d : dict) (key : string) : option value :=
  match d with
  | [] => None
  | (k, v) :: rest => if String.eqb k key then Some v else get rest key
  end.

Definition contains (d : dict) (key : string) : bool :=
  match get d key with Some _ => true | None => false end.

(** [d[key] = v]: overwrite in place when the key is present, append when
    it is not. *)
Fixpoint set (d : dict) (key : string) (v : value) : dict :=
  match d with
  | [] => [(key, v)]
  | (k, x) :: rest =>
      if String.eqb k key then (k, v) :: rest else (k, x) :: set rest key v
  end.

End Py.

(** ** The statement builder of [cosmosgremlinclient.py] *)

Module Gremlin.
Import Py.

Definition quote : ascii := "039"%char.
Definition backslash : ascii := "092"%char.

(** [value.replace("'", "\\'")] *)
Fixpoint _escape_gremlin_string (value : string) : string :=
  match value with
  | EmptyString => EmptyString
  | String c rest =>
      if Ascii.eqb c quote
      then String backslash (String quote (_escape_gremlin_string rest))
      else String c (_escape_gremlin_string rest)
  end.

(** One iteration of the loop of [_format_properties]: the key is embedded
    as it is, a string value is escaped, a boolean is lower-cased, any other
    value is embedded through [str]. *)
Definition format_property_step (key : string) (v : value) : string :=
  match v with
  | VStr s =>
      ".property('" ++ key ++ "', '" ++ _escape_gremlin_string s ++ "')"
  | VBool b =>
      ".property('" ++ key ++ "', " ++ str_lower_bool b ++ ")"
  | _ =>
      ".property('" ++ key ++ "', " ++ str v ++ ")"
  end.

Definition _format_properties (properties : option dict) : string :=
  match properties with
  | None => ""
  | Some [] => ""
  | Some items =>
      fold_left (fun props_str kv =>
                   props_str ++ format_property_step (fst kv) (snd kv))
                items ""
  end.

(** The statement of [create_vertex]. *)
Definition create_vertex_query (label : string) (properties : option dict)
  : string :=
  "g.addV('" ++ label ++ "')" ++ _format_properties properties.

(** The statement of [create_edge]. *)
Definition create_edge_query (from_vertex_id to_vertex_id label : string)
  (properties : option dict) : string :=
  ("g.V('" ++ from_vertex_id ++ "')"
   ++ ".addE('" ++ label ++ "')"
   ++ ".to(g.V('" ++ to_vertex_id ++ "'))")
  ++ _format_properties properties.

(** The statement of [_find_vertex]. *)
Definition find_query (partition_key_field label unique_property_name
  unique_property_value : string) : string :=
  let escaped_label := _escape_gremlin_string label in
  let escaped_prop_name := _escape_gremlin_string unique_property_name in
  let escaped_prop_value := _escape_gremlin_string unique_property_value in
  "g.V().hasLabel('" ++ escaped_label ++ "')"
  ++ ".has('" ++ partition_key_field ++ "', '" ++ escaped_label ++ "')"
  ++ ".has('" ++ escaped_prop_name ++ "', '" ++ escaped_prop_value ++ "')"
  ++ ".limit(1)".

(** The property clause the two loops of [upsert_vertex] append: key and
    string value escaped, any other value embedded through [str]. *)
Definition upsert_property_step (key : string) (v : value) : string :=
  let escaped_key := _escape_gremlin_string key in
  match v with
  | VStr s =>
      ".property('" ++ escaped_key ++ "', '"
      ++ _escape_gremlin_string s ++ "')"
  | _ => ".property('" ++ escaped_key ++ "', " ++ str v ++ ")"
  end.

(** The comprehension of [upsert_vertex]: the entries whose key is neither
    [id] nor [label]. *)
Definition without_id_label (properties : dict) : dict :=
  filter (fun kv => negb (String.eqb (fst kv) "id"
                          || String.eqb (fst kv) "label")) properties.

(** [filtered_properties] of [upsert_vertex]: the comprehension, then the
    unique property added when absent. *)
Definition filtered_properties (unique_property_name unique_property_value
  : string) (properties : dict) : dict :=
  let filtered := without_id_label properties in
  if contains filtered unique_property_name
  then filtered
  else (filtered ++ [(unique_property_name, VStr unique_property_value)])%list.

(** The keys the update loop skips with [continue]. *)
Definition update_skips (partition_key_field unique_property_name key
  : string) : bool :=
  String.eqb key unique_property_name
  || String.eqb key partition_key_field
  || String.eqb key "id".

(** The keys the creation loop skips with [continue]. *)
Definition create_skips (partition_key_field key : string) : bool :=
  String.eqb key partition_key_field || String.eqb key "id".

(** The update statement, built as the code builds it: the header selecting
    the vertex, then the loop over [filtered_properties]. *)
Definition update_query (partition_key_field vertex_id label
  unique_property_name : string) (filtered : dict) : string :=
  let escaped_vertex_id := _escape_gremlin_string vertex_id in
  let escaped_label := _escape_gremlin_string label in
  let gremlin_query :=
    "g.V('" ++ escaped_vertex_id ++ "')"
    ++ ".has('" ++ partition_key_field ++ "', '" ++ escaped_label ++ "')" in
  fold_left
    (fun gremlin_query kv =>
       if update_skips partition_key_field unique_property_name (fst kv)
       then gremlin_query
       else gremlin_query ++ upsert_property_step (fst kv) (snd kv))
    filtered gremlin_query.

(** The creation statement of [upsert_vertex]. *)
Definition insert_query (partition_key_field label id_value : string)
  (filtered : dict) : string :=
  let escaped_label := _escape_gremlin_string label in
  let escaped_id_value := _escape_gremlin_string id_value in
  let gremlin_query :=
    "g.addV('" ++ escaped_label ++ "')"
    ++ ".property('id', '" ++ escaped_id_value ++ "')"
    ++ ".property('" ++ partition_key_field ++ "', '"
    ++ escaped_label ++ "')" in
  fold_left
    (fun gremlin_query kv =>
       if create_skips partition_key_field (fst kv)
       then gremlin_query
       else gremlin_query ++ upsert_property_step (fst kv) (snd kv))
    filtered gremlin_query.

(** A text in which every quote directly follows a backslash. *)
Fixpoint quotes_escaped_from (previous : ascii) (s : string) : bool :=
  match s with
  | EmptyString => true
  | String c rest =>
      (negb (Ascii.eqb c quote) || Ascii.eqb previous backslash)
      && quotes_escaped_from c rest
  end.

Definition quotes_escaped (s : string) : bool :=
  quotes_escaped_from " "%char s.

End Gremlin.

(** ** The graph store

    The store is the remote collaborator. It is modelled as far as the
    client drives it: a list of vertices and edges, and the effect of each
    kind of statement the client and the migration script emit. A statement
    reaches the store as a [traversal], with the values the client built its
    text from: the server is taken to read a quoted text back as the value
    it stands for. [render] gives the text of a traversal, and the text the
    client builds is shown below to be that text, statement by statement. *)

Module Store.
Import Py Gremlin.

Record vertex := {
  v_id : string;
  v_label : string;
  v_props : dict
}.

Record edge := {
  e_id : string;
  e_from : string;
  e_to : string;
  e_label : string;
  e_props : dict
}.

(** The statements the client emits, by their meaning. [Update] and
    [Insert] carry the property assignments that are in the statement, the
    clauses the loops of [upsert_vertex] did not skip. *)
Inductive traversal :=
| Count
| DropLimit (n : Z)
| Find (partition_key_field label unique_name unique_value : string)
| Update (partition_key_field vertex_id label : string) (assigns : dict)
| Insert (partition_key_field label id_value : string) (assigns : dict)
| AddV (label : string) (properties : dict)
| AddE (from_id to_id label : string) (properties : dict).

Inductive answer :=
| AVertex (v : vertex)
| AEdge (e : edge)
| ANum (n : Z).

(** What the store holds. [accepts] is the store's own admission rule for
    a new vertex (Cosmos DB refuses an id already present in the partition);
    [minted] numbers the ids the store generates itself. *)
Record graph := {
  vertices : list vertex;
  edges : list edge;
  minted : nat;
  accepts : list vertex -> vertex -> bool
}.

(** The value a [has(key, ...)] step reads: [id] and [label] are the
    element's own, any other key is a property. *)
Definition prop (v : vertex) (key : string) : option value :=
  if String.eqb key "id" then Some (VStr (v_id v))
  else if String.eqb key "label" then Some (VStr (v_label v))
  else get (v_props v) key.

Definition has (key val : string) (v : vertex) : bool :=
  match prop v key with
  | Some x => value_eqb x (VStr val)
  | None => false
  end.

(** [.property(key, x)] steps applied in order; a later value replaces an
    earlier one. *)
Definition assign_all (assigns props : dict) : dict :=
  fold_left (fun d kv => set d (fst kv) (snd kv)) assigns props.

Definition find_matches (pk label uname uvalue : string) (v : vertex)
  : bool :=
  String.eqb (v_label v) label && has pk label v && has uname uvalue v.

Definition update_selects (pk vertex_id label : string) (v : vertex)
  : bool :=
  String.eqb (v_id v) vertex_id && has pk label v.

Definition mint (n : nat) : string :=
  "auto-" ++ NilZero.string_of_uint (Nat.to_uint n).

Definition incident (gone : list vertex) (e : edge) : bool :=
  existsb (fun v => String.eqb (v_id v) (e_from e)
                    || String.eqb (v_id v) (e_to e)) gone.

Definition with_vertices (g : graph) (vs : list vertex) : graph :=
  {| vertices := vs; edges := edges g; minted := minted g;
     accepts := accepts g |}.

(** What an [Update] makes of a vertex: the assignments on a vertex it
    selects, nothing on another. *)
Definition updated (pk vertex_id label : string) (assigns : dict)
  (v : vertex) : vertex :=
  if update_selects pk vertex_id label v
  then {| v_id := v_id v; v_label := v_label v;
          v_props := assign_all assigns (v_props v) |}
  else v.

(** The vertex an [Insert] adds: the id, then the partition key, then the
    assignments. *)
Definition inserted (pk label id_value : string) (assigns : dict)
  : vertex :=
  {| v_id := id_value; v_label := label;
     v_props := assign_all assigns [(pk, VStr label)] |}.

(** The effect of a statement; [None] is a server error. *)
Definition exec (t : traversal) (g : graph)
  : option (list answer * graph) :=
  match t with
  | Count => Some ([ANum (Z.of_nat (List.length (vertices g)))], g)
  | DropLimit n =>
      let gone := firstn (Z.to_nat n) (vertices g) in
      Some ([], {| vertices := skipn (Z.to_nat n) (vertices g);
                   edges := filter (fun e => negb (incident gone e))
                                   (edges g);
                   minted := minted g; accepts := accepts g |})
  | Find pk label uname uvalue =>
      Some (map AVertex
              (firstn 1 (filter (find_matches pk label uname uvalue)
                                (vertices g))), g)
  | Update pk vertex_id label assigns =>
      Some (map (fun v => AVertex (updated pk vertex_id label assigns v))
              (filter (update_selects pk vertex_id label) (vertices g)),
            with_vertices g
              (map (updated pk vertex_id label assigns) (vertices g)))
  | Insert pk label id_value assigns =>
      let v := inserted pk label id_value assigns in
      if accepts g (vertices g) v
      then Some ([AVertex v], with_vertices g (vertices g ++ [v])%list)
      else None
  | AddV label properties =>
      let (id, m) :=
        match get properties "id" with
        | Some (VStr s) => (s, minted g)
        | _ => (mint (minted g), S (minted g))
        end in
      let v := {| v_id := id; v_label := label;
                  v_props := assign_all properties [] |} in
      if accepts g (vertices g) v
      then Some ([AVertex v],
                 {| vertices := (vertices g ++ [v])%list; edges := edges g;
                    minted := m; accepts := accepts g |})
      else None
  | AddE from_id to_id label properties =>
      if existsb (fun v => String.eqb (v_id v) from_id) (vertices g)
         && existsb (fun v => String.eqb (v_id v) to_id) (vertices g)
      then
        let e := {| e_id := mint (minted g); e_from := from_id;
                    e_to := to_id; e_label := label;
                    e_props := assign_all properties [] |} in
        Some ([AEdge e],
              {| vertices := vertices g; edges := (edges g ++ [e])%list;
                 minted := S (minted g); accepts := accepts g |})
      else Some ([], g)
  end.

(** The text of a statement, clause by clause. *)
Fixpoint clauses (step : string -> value -> string) (assigns : dict)
  : string :=
  match assigns with
  | [] => ""
  | (key, v) :: rest => step key v ++ clauses step rest
  end.

Definition render (t : traversal) : string :=
  match t with
  | Count => "g.V().count()"
  | DropLimit n => "g.V().limit(" ++ str (VInt n) ++ ").drop()"
  | Find pk label uname uvalue => find_query pk label uname uvalue
  | Update pk vertex_id label assigns =>
      "g.V('" ++ _escape_gremlin_string vertex_id ++ "')"
      ++ ".has('" ++ pk ++ "', '" ++ _escape_gremlin_string label ++ "')"
      ++ clauses upsert_property_step assigns
  | Insert pk label id_value assigns =>
      "g.addV('" ++ _escape_gremlin_string label ++ "')"
      ++ ".property('id', '" ++ _escape_gremlin_string id_value ++ "')"
      ++ ".property('" ++ pk ++ "', '" ++ _escape_gremlin_string label ++ "')"
      ++ clauses upsert_property_step assigns
  | AddV label properties =>
      "g.addV('" ++ label ++ "')"
      ++ clauses format_property_step properties
  | AddE from_id to_id label properties =>
      "g.V('" ++ from_id ++ "')" ++ ".addE('" ++ label ++ "')"
      ++ ".to(g.V('" ++ to_id ++ "'))"
      ++ clauses format_property_step properties
  end.

(** A store that takes every vertex it is sent. *)
Definition holding (vs : list vertex) : graph :=
  {| vertices := vs; edges := []; minted := 0;
     accepts := fun _ _ => true |}.

(** The admission rule of a partitioned Cosmos DB collection: an id is
    unique within its partition. *)
Definition unique_id_in_partition (pk : string) (vs : list vertex)
  (v : vertex) : bool :=
  negb (existsb (fun x => String.eqb (v_id x) (v_id v)
                          && match prop x pk, prop v pk with
                             | Some a, Some b => value_eqb a b
                             | None, None => true
                             | _, _ => false
                             end) vs).

(** A partitioned collection holding [vs]. *)
Definition collection (pk : string) (vs : list vertex) : graph :=
  {| vertices := vs; edges := []; minted := 0;
     accepts := unique_id_in_partition pk |}.

End Store.

(** ** Effects: the world a run acts on *)

Module Run.
Import Py Store.

Inductive exn :=
| AttributeError
| IndexError
| UnboundLocalError
| GremlinServerError.

(** The diagnostics the client prints on a failure. *)
Inductive diagnostic :=
| NotConnected
    (* Error: Not connected to the graph database. Call connect() first. *)
| TraversalNotInitialized
    (* Error: Graph traversal source 'g' not initialized. Call connect()
       first. *)
| QueryExecutionError (e : exn)
    (* ... error occurred during query execution: e *)
| GremlinQueryError (query : string) (e : exn)
    (* Error executing Gremlin query: query / Error: e *)
| UpsertArgumentsRequired
    (* Error: label, id_value, unique_property_name, and
       unique_property_value are required for upserting a vertex. *)
| FoundVertexHasNoId.
    (* Error: Found vertex has no 'id' property. Cannot update. *)

(** A statement as the client holds it: the text it built, and the
    traversal the store reads in it. *)
Record query := {
  q_text : string;
  q_sem : traversal
}.

(** The world: the store, the outcome of the submissions to come ([true]:
    that submission fails with a server error; when the list is used up
    submissions go through), the texts sent so far, the diagnostics printed
    so far. *)
Record world := {
  store : graph;
  faults : list bool;
  wire : list string;
  console : list diagnostic
}.

(** The world at the start of a run on store [g], every submission going
    through. *)
Definition start (g : graph) : world :=
  {| store := g; faults := []; wire := []; console := [] |}.

(** A computation returns, raises, or is still looping when the fuel of
    its loop is used up. *)
Inductive result (A : Type) :=
| Return (a : A)
| Raise (e : exn)
| Timeout.
Arguments Return {A} a.
Arguments Raise {A} e.
Arguments Timeout {A}.

Definition M (A : Type) := world -> result A * world.

Definition ret {A} (a : A) : M A := fun w => (Return a, w).

Definition bind {A B} (m : M A) (k : A -> M B) : M B :=
  fun w =>
    match m w with
    | (Return a, w') => k a w'
    | (Raise e, w') => (Raise e, w')
    | (Timeout, w') => (Timeout, w')
    end.

Definition raise {A} (e : exn) : M A := fun w => (Raise e, w).

Definition out_of_fuel {A} : M A := fun w => (Timeout, w).

(** [try: m except Exception as e: handler e] *)
Definition try_except {A} (m : M A) (handler : exn -> M A) : M A :=
  fun w =>
    match m w with
    | (Raise e, w') => handler e w'
    | r => r
    end.

Definition logged (d : diagnostic) (w : world) : world :=
  {| store := store w; faults := faults w; wire := wire w;
     console := (console w ++ [d])%list |}.

Definition print (d : diagnostic) : M unit :=
  fun w => (Return tt, logged d w).

(** One statement sent to the server and its answer awaited. A submission
    that fails is one the server refuses: the store is as it was. A failure
    raised once the server has applied a write is outside this model. *)
Definition send (q : query) : M (list answer) :=
  fun w =>
    let sent := (wire w ++ [q_text q])%list in
    match faults w with
    | true :: rest =>
        (Raise GremlinServerError,
         {| store := store w; faults := rest; wire := sent;
            console := console w |})
    | _ =>
        match exec (q_sem q) (store w) with
        | Some (answers, g') =>
            (Return answers,
             {| store := g'; faults := tl (faults w); wire := sent;
                console := console w |})
        | None =>
            (Raise GremlinServerError,
             {| store := store w; faults := tl (faults w); wire := sent;
                console := console w |})
        end
    end.

End Run.

Declare Scope run_scope.
Delimit Scope run_scope with run.
Notation "x <- m ;; k" := (Run.bind m (fun x => k))
  (at level 61, m at next level, right associativity) : run_scope.
Notation "m ;; k" := (Run.bind m (fun _ => k))
  (at level 61, right associativity) : run_scope.

(** ** [CosmosGraphClient] *)

Module Client.
Import Py Gremlin Store Run.
Local Open Scope run_scope.

Inductive handle := Handle.

Record CosmosGraphClient := {
  partition_key_field : string;
  gremlin_client : option handle;
  connection : option handle;
  g : option handle
}.

(** [__init__] *)
Definition init (partition_key_field : string) : CosmosGraphClient :=
  {| partition_key_field := partition_key_field;
     gremlin_client := None; connection := None; g := None |}.

(** [connect], when the endpoint accepts the connection. *)
Definition connect (self : CosmosGraphClient) : CosmosGraphClient :=
  match gremlin_client self with
  | Some _ => self
  | None =>
      {| partition_key_field := partition_key_field self;
         gremlin_client := Some Handle; connection := Some Handle;
         g := Some Handle |}
  end.

(** [close] *)
Definition close (self : CosmosGraphClient) : CosmosGraphClient :=
  {| partition_key_field := partition_key_field self;
     gremlin_client := None; connection := None; g := None |}.

(** [self.gremlin_client.submit(query)] and
    [self.gremlin_client.submitAsync(query)], with the result awaited: on a
    client that is [None] the attribute access raises. *)
Definition submit (self : CosmosGraphClient) (q : query)
  : M (list answer) :=
  match gremlin_client self with
  | None => raise AttributeError
  | Some _ => send q
  end.

Definition _execute_query (self : CosmosGraphClient) (q : query)
  : M (list answer) :=
  match gremlin_client self with
  | None => print NotConnected ;; ret []
  | Some _ =>
      try_except (submit self q)
        (fun e => print (QueryExecutionError e) ;; ret [])
  end.

Definition items (properties : option dict) : dict :=
  match properties with Some d => d | None => [] end.

Definition create_vertex (self : CosmosGraphClient) (label : string)
  (properties : option dict) : M (list answer) :=
  match g self with
  | None => print TraversalNotInitialized ;; ret []
  | Some _ =>
      _execute_query self
        {| q_text := create_vertex_query label properties;
           q_sem := AddV label (items properties) |}
  end.

(** Returns [None] when the execution raised. *)
Definition _execute_gremlin_query (self : CosmosGraphClient) (q : query)
  : M (option (list answer)) :=
  try_except (results <- submit self q ;; ret (Some results))
    (fun e => print (GremlinQueryError (q_text q) e) ;; ret None).

(** [results[0]] when [results and len(results) > 0], else [None]. *)
Definition first_result (results : option (list answer)) : option answer :=
  match results with
  | Some (r :: _) => Some r
  | _ => None
  end.

Definition _find_vertex (self : CosmosGraphClient) (label
  unique_property_name unique_property_value : string)
  : M (option answer) :=
  let pk := partition_key_field self in
  results <- _execute_gremlin_query self
    {| q_text := find_query pk label unique_property_name
                   unique_property_value;
       q_sem := Find pk label unique_property_name
                  unique_property_value |} ;;
  ret (first_result results).

(** Truth value of what [_find_vertex] returned: [None] is falsy, a vertex
    or an edge is a non-empty mapping, a number is truthy unless zero. *)
Definition found (existing_vertex : option answer) : bool :=
  match existing_vertex with
  | None => false
  | Some (ANum n) => negb (Z.eqb n 0)
  | Some _ => true
  end.

(** [existing_vertex.get('id')]; a number has no [get]. *)
Definition get_id (a : answer) : M (option string) :=
  match a with
  | AVertex v => ret (Some (v_id v))
  | AEdge e => ret (Some (e_id e))
  | ANum _ => raise AttributeError
  end.

Definition unwrap (s : option string) : string :=
  match s with Some x => x | None => "" end.

Definition is_None (s : option string) : bool :=
  match s with None => true | Some _ => false end.

(** The three handles are [None]: the state before [connect] and after
    [close]. *)
Definition disconnected (self : CosmosGraphClient) : Prop :=
  gremlin_client self = None /\ connection self = None /\ g self = None.

Definition connected (self : CosmosGraphClient) : Prop :=
  gremlin_client self = Some Handle /\ g self = Some Handle.

Definition upsert_vertex (self : CosmosGraphClient)
  (label id_value unique_property_name unique_property_value
   : option string) (properties : dict) : M (option answer) :=
  if negb (truthy label) || negb (truthy id_value)
     || negb (truthy unique_property_name)
     || is_None unique_property_value
  then print UpsertArgumentsRequired ;; ret None
  else
    let pk := partition_key_field self in
    let label := unwrap label in
    let id_value := unwrap id_value in
    let unique_property_name := unwrap unique_property_name in
    let unique_property_value := unwrap unique_property_value in
    let filtered :=
      filtered_properties unique_property_name unique_property_value
        properties in
    existing_vertex <- _find_vertex self label unique_property_name
                         unique_property_value ;;
    if found existing_vertex then
      match existing_vertex with
      | None => ret None
      | Some existing =>
          vertex_id <- get_id existing ;;
          if negb (truthy vertex_id)
          then print FoundVertexHasNoId ;; ret None
          else
            let vertex_id := unwrap vertex_id in
            results <- _execute_gremlin_query self
              {| q_text := update_query pk vertex_id label
                             unique_property_name filtered;
                 q_sem := Update pk vertex_id label
                            (filter (fun kv =>
                               negb (update_skips pk unique_property_name
                                       (fst kv))) filtered) |} ;;
            ret (first_result results)
      end
    else
      results <- _execute_gremlin_query self
        {| q_text := insert_query pk label id_value filtered;
           q_sem := Insert pk label id_value
                      (filter (fun kv => negb (create_skips pk (fst kv)))
                              filtered) |} ;;
      ret (first_result results).

Definition create_edge (self : CosmosGraphClient)
  (from_vertex_id to_vertex_id label : string) (properties : option dict)
  : M (list answer) :=
  match g self with
  | None => print TraversalNotInitialized ;; ret []
  | Some _ =>
      _execute_query self
        {| q_text := create_edge_query from_vertex_id to_vertex_id label
                       properties;
           q_sem := AddE from_vertex_id to_vertex_id label
                      (items properties) |}
  end.

Definition run_query (self : CosmosGraphClient) (q : query)
  : M (list answer) :=
  _execute_query self q.

End Client.

(** ** The paginated fetchers *)

Module Collibra.
Import Py Run.

Section Fetch.

(** The records of the catalog; the fetchers only move them. *)
Variable R : Type.

(** The body of a reply, [{results: [...], total: n}], either field
    possibly absent. *)
Record page := {
  data_results : option (list R);
  data_total : option Z
}.

(** A GET as [requests.get] receives it: the url text, the [params]
    argument when one is passed, and the query the server decodes from the
    two. *)
Record request := {
  url : string;
  params : option dict;
  query : dict
}.

Inductive reply :=
| ConnectionError
| Response (status_code : Z) (body : page).

(** The catalog: what it answers to the request it receives after [n]
    earlier ones. *)
Definition server := nat -> request -> reply.

(** [response.raise_for_status()] raises on a 4xx or 5xx status. *)
Definition is_error_status (status_code : Z) : bool :=
  (400 <=? status_code)%Z && (status_code <? 600)%Z.

Definition len (l : list R) : Z := Z.of_nat (List.length l).

Definition or_empty (r : option (list R)) : list R :=
  match r with Some l => l | None => [] end.

Definition or_zero (t : option Z) : Z :=
  match t with Some z => z | None => 0%Z end.

(** *** [collibrarestassets.py] *)

Variable COLLIBRA_URL : string.

Definition assets_limit : Z := 100.

Definition assets_request (offset limit : Z) : request :=
  {| url := COLLIBRA_URL ++ "/rest/2.0/assets?offset=" ++ str (VInt offset)
            ++ "&limit=" ++ str (VInt limit);
     params := None;
     query := [("offset", VInt offset); ("limit", VInt limit)] |}.

(** The [while True] loop of [get_all_collibra_assets_basic_auth]. [sent]
    counts the requests made so far, [trace] lists them, [response] is the
    binding of the local variable of that name: [None] until a first reply
    has been received. The handler of [RequestException] prints
    [response.text], which raises when the variable is unbound. *)
Fixpoint assets_loop (fuel : nat) (srv : server) (sent : nat)
  (offset : Z) (assets : list R) (response : option reply)
  (trace : list request) : result (list R) * list request :=
  match fuel with
  | O => (Timeout, trace)
  | S fuel' =>
      let rq := assets_request offset assets_limit in
      let trace := (trace ++ [rq])%list in
      match srv sent rq with
      | ConnectionError =>
          match response with
          | None => (Raise UnboundLocalError, trace)
          | Some _ => (Return assets, trace)
          end
      | Response status_code data =>
          if is_error_status status_code
          then (Return assets, trace)
          else
            let current_assets := or_empty (data_results data) in
            let total := or_zero (data_total data) in
            let assets := (assets ++ current_assets)%list in
            if (len assets >=? total)%Z
            then (Return assets, trace)
            else assets_loop fuel' srv (S sent)
                   (offset + len current_assets)%Z assets
                   (Some (Response status_code data)) trace
      end
  end.

Definition get_all_collibra_assets_basic_auth (fuel : nat) (srv : server)
  : result (list R) * list request :=
  assets_loop fuel srv 0 0%Z [] None [].

(** *** [collibrarestrelations.py] *)

Definition paginated_limit : Z := 1000.

(** The request of [get_paginated_data]: the endpoint alone. The call
    passes [auth] and [headers]; the parameter set is not among its
    arguments. *)
Definition paginated_request (endpoint : string) : request :=
  {| url := endpoint; params := None; query := [] |}.

(** The [while len(all_results) < total] loop. [params] is the caller's
    dictionary, updated in place at each turn. The function returns the
    result, the requests made, and the dictionary as the caller finds it
    afterwards. *)
Fixpoint paginated_loop (fuel : nat) (srv : server) (sent : nat)
  (endpoint : string) (params : dict) (all_results : list R) (total : Z)
  (offset : Z) (trace : list request)
  : result (list R) * list request * dict :=
  if (len all_results <? total)%Z then
    match fuel with
    | O => (Timeout, trace, params)
    | S fuel' =>
        let params := set (set params "offset" (VInt offset))
                          "limit" (VInt paginated_limit) in
        let rq := paginated_request endpoint in
        let trace := (trace ++ [rq])%list in
        match srv sent rq with
        | ConnectionError => (Return [], trace, params)
        | Response status_code data =>
            if is_error_status status_code
            then (Return [], trace, params)
            else
              let total :=
                if (offset =? 0)%Z then or_zero (data_total data)
                else total in
              let results := or_empty (data_results data) in
              let all_results := (all_results ++ results)%list in
              paginated_loop fuel' srv (S sent) endpoint params
                all_results total (offset + len results)%Z trace
        end
    end
  else (Return all_results, trace, params).

Definition get_paginated_data (fuel : nat) (srv : server)
  (endpoint : string) (params : dict)
  : result (list R) * list request * dict :=
  paginated_loop fuel srv 0 endpoint params [] 1%Z 0%Z [].

(** *** A catalog that paginates

    A server holding [db] that honours [offset] and [limit], with its own
    defaults for a request that names neither. *)
Definition query_nat (q : dict) (key : string) (default : nat) : nat :=
  match get q key with
  | Some (VInt z) => Z.to_nat z
  | _ => default
  end.

Definition paging_server (db : list R) (default_limit : nat) : server :=
  fun _ rq =>
    let offset := query_nat (query rq) "offset" 0 in
    let limit := query_nat (query rq) "limit" default_limit in
    Response 200 {| data_results := Some (firstn limit (skipn offset db));
                    data_total := Some (len db) |}.

(** A catalog that answers by a script, whatever the request. *)
Definition scripted (replies : list reply) : server :=
  fun n _ => nth n replies ConnectionError.

(** The records the catalog handed over in answer to the requests of
    [trace], the first of which it received after [sent] earlier ones. *)
Fixpoint received (srv : server) (sent : nat) (trace : list request)
  : list R :=
  match trace with
  | [] => []
  | rq :: rest =>
      match srv sent rq with
      | Response status_code data =>
          if is_error_status status_code then received srv (S sent) rest
          else (or_empty (data_results data)
                ++ received srv (S sent) rest)%list
      | ConnectionError => received srv (S sent) rest
      end
  end.

(** What a catalog that answers by the request alone sends back to the
    request of [get_paginated_data]. *)
Definition only_page (answer : request -> reply) (endpoint : string)
  : list R :=
  match answer (paginated_request endpoint) with
  | Response status_code data =>
      if is_error_status status_code then []
      else or_empty (data_results data)
  | ConnectionError => []
  end.

(** The reply is a 4xx or 5xx response. *)
Definition http_error (r : reply) : Prop :=
  match r with
  | Response status_code _ => is_error_status status_code = true
  | ConnectionError => False
  end.

End Fetch.

Arguments data_results {R} _.
Arguments data_total {R} _.
Arguments ConnectionError {R}.
Arguments Response {R} status_code body.
Arguments assets_loop {R} COLLIBRA_URL fuel srv sent offset assets
  response trace.
Arguments get_all_collibra_assets_basic_auth {R} COLLIBRA_URL fuel srv.
Arguments paginated_loop {R} fuel srv sent endpoint params all_results
  total offset trace.
Arguments get_paginated_data {R} fuel srv endpoint params.
Arguments paging_server {R} db default_limit _ _.
Arguments scripted {R} replies _ _.
Arguments received {R} srv sent trace.
Arguments http_error {R} r.
Arguments only_page {R} answer endpoint.
Arguments len {R} l.
Arguments or_empty {R} r.

End Collibra.

(** ** The migration script, [knowgraphcollibra.py] *)

Module Orchestrator.
Import Py Gremlin Store Run Client.
Local Open Scope run_scope.

Definition count_query : query :=
  {| q_text := "g.V().count()"; q_sem := Count |}.

Definition drop_query (drop_limit : Z) : query :=
  {| q_text := "g.V().limit(" ++ str (VInt drop_limit) ++ ").drop()";
     q_sem := DropLimit drop_limit |}.

(** [answers[0]] *)
Definition item0 (answers : list answer) : M answer :=
  match answers with
  | [] => raise IndexError
  | a :: _ => ret a
  end.

(** [remaining == 0] *)
Definition equals_zero (remaining : answer) : bool :=
  match remaining with
  | ANum n => Z.eqb n 0
  | _ => false
  end.

(** The [while True] loop that drops the vertices in batches. *)
Fixpoint drain_loop (fuel : nat) (client : CosmosGraphClient)
  (drop_limit : Z) : M unit :=
  match fuel with
  | O => out_of_fuel
  | S fuel' =>
      answers <- run_query client count_query ;;
      remaining <- item0 answers ;;
      if equals_zero remaining then ret tt
      else
        run_query client (drop_query drop_limit) ;;
        drain_loop fuel' client drop_limit
  end.

Definition drop_limit : Z := 10.

Definition drain (fuel : nat) (client : CosmosGraphClient) : M unit :=
  drain_loop fuel client drop_limit.

(** A relation as [get_all_collibra_relations] hands it over; a field is
    [None] when the catalog gave no value for it. *)
Record relation := {
  source_id : option string;
  target_id : option string;
  relation_type_id : option string
}.

Definition as_value (s : option string) : value :=
  match s with Some x => VStr x | None => VNone end.

(** The test [if source_id and target_id]. *)
Definition has_both_ends (rel : relation) : bool :=
  truthy (source_id rel) && truthy (target_id rel).

(** The call of [create_edge] in the relation loop. *)
Definition create_relation_edge (client : CosmosGraphClient)
  (rel : relation) : M (list answer) :=
  create_edge client (unwrap (source_id rel)) (unwrap (target_id rel))
    "relatedTo" (Some [("relationTypeId", as_value (relation_type_id rel))]).

(** The loop [for rel in all_relations]. *)
Fixpoint relation_loop (client : CosmosGraphClient)
  (all_relations : list relation) : M unit :=
  match all_relations with
  | [] => ret tt
  | rel :: rest =>
      (if has_both_ends rel
       then create_relation_edge client rel ;; ret tt
       else ret tt) ;;
      relation_loop client rest
  end.

(** A list of calls made one after the other, results dropped. *)
Fixpoint each {A B} (call : A -> M B) (l : list A) : M unit :=
  match l with
  | [] => ret tt
  | x :: rest => call x ;; each call rest
  end.

End Orchestrator.

(** ** The uniqueness invariant of the upsert *)

Module Invariant.
Import Py Store Run Client.

(** A vertex of that label that has that value under that property. *)
Definition matches (label uname uvalue : string) (v : vertex) : bool :=
  String.eqb (v_label v) label && has uname uvalue v.

Definition count_matching (label uname uvalue : string)
  (vs : list vertex) : nat :=
  List.length (filter (matches label uname uvalue) vs).

(** At most one vertex for any label and any value of the property
    [uname]. *)
Definition unique_on (uname : string) (vs : list vertex) : Prop :=
  forall label uvalue, count_matching label uname uvalue vs <= 1.

(** Every vertex carries its own label under the partition key, as the
    vertices [upsert_vertex] creates do. *)
Definition partitioned (pk : string) (vs : list vertex) : Prop :=
  Forall (fun v => has pk (v_label v) v = true) vs.

(** The arguments of one call of [upsert_vertex], the unique property name
    apart. *)
Record upsert_call := {
  c_label : option string;
  c_id_value : option string;
  c_unique_value : option string;
  c_properties : dict
}.

Definition upsert (self : CosmosGraphClient) (uname : string)
  (c : upsert_call) : M (option answer) :=
  upsert_vertex self (c_label c) (c_id_value c) (Some uname)
    (c_unique_value c) (c_properties c).

(** The call names one value for the unique property: where [properties]
    has the property, it has it with [unique_property_value]; when the
    property is [id], [id_value] is [unique_property_value]. *)
Definition agrees (uname : string) (c : upsert_call) : Prop :=
  if String.eqb uname "id"
  then c_id_value c = c_unique_value c
  else Forall (fun kv => fst kv = uname ->
                         snd kv = VStr (unwrap (c_unique_value c)))
              (c_properties c).

(** What a sequence of upserts keeps: submissions go through, every vertex
    carries its label under the partition key, and the unique property is
    unique within a label. *)
Definition kept (self : CosmosGraphClient) (uname : string) (w : world)
  : Prop :=
  faults w = []
  /\ partitioned (partition_key_field self) (vertices (store w))
  /\ unique_on uname (vertices (store w)).

(** The world once the lookup of an upsert has been answered. *)
Definition looked_up (self : CosmosGraphClient) (label uname uvalue : string)
  (w : world) : world :=
  {| store := store w; faults := [];
     wire := (wire w ++ [Gremlin.find_query (partition_key_field self) label
                           uname uvalue])%list;
     console := console w |}.

End Invariant.

(** ** Inputs for the examples *)

Module Scenario.
Import Py Store.

(** [k] vertices of label [Asset]. *)
Definition some_vertices (k : nat) : list vertex :=
  map (fun i => {| v_id := mint i; v_label := "Asset"; v_props := [] |})
      (seq 0 k).

(** Two pages arrive, the third request fails with a 503. *)
Definition two_pages_then_503 : Collibra.server nat :=
  Collibra.scripted
    [ Collibra.Response 200
        {| Collibra.data_results := Some [1; 2];
           Collibra.data_total := Some 5%Z |};
      Collibra.Response 200
        {| Collibra.data_results := Some [3; 4];
           Collibra.data_total := Some 5%Z |};
      Collibra.Response 503
        {| Collibra.data_results := None; Collibra.data_total := None |} ].

End Scenario.

(** ** The relation extractor of [collibrarestrelations.py] *)

Module Extractor.
Import Py Run.

(** A decoded JSON value: a scalar, a list, or an object with its fields in
    order. *)
#[local] Set Warnings "-register-all".
Inductive json :=
| Scalar (v : value)
| Arr (elements : list json)
| Obj (fields : list (string * json)).

(** What the script can raise beside what the client and the fetchers
    raise. *)
Inductive error :=
| Raised (e : exn)
| KeyError (key : string)
| TypeError.

Inductive outcome (A : Type) :=
| Done (a : A)
| Failed (e : error)
| Stalled.
Arguments Done {A} a.
Arguments Failed {A} e.
Arguments Stalled {A}.

Fixpoint field (fields : list (string * json)) (key : string)
  : option json :=
  match fields with
  | [] => None
  | (k, x) :: rest => if String.eqb k key then Some x else field rest key
  end.

(** [j[key]] with a string key: the field of an object, [KeyError] when
    the object has no such field, [TypeError] on anything that is not an
    object. *)
Definition item (j : json) (key : string) : outcome json :=
  match j with
  | Obj fields =>
      match field fields key with
      | Some x => Done x
      | None => Failed (KeyError key)
      end
  | _ => Failed TypeError
  end.

(** The dictionary [get_all_collibra_relations] appends for a relation. *)
Record relationship := {
  source_id : json;
  target_id : json;
  relation_type_id : json
}.

Definition then_ {A B} (o : outcome A) (k : A -> outcome B) : outcome B :=
  match o with
  | Done a => k a
  | Failed e => Failed e
  | Stalled => Stalled
  end.

(** The body of the loop over the relations: the four subscripts, in the
    order of the code, then the dictionary. *)
Definition normalise (rel : json) : outcome relationship :=
  then_ (item rel "id") (fun relation_id =>
  then_ (item rel "source") (fun source =>
  then_ (item source "id") (fun source_asset_id =>
  then_ (item rel "target") (fun target =>
  then_ (item target "id") (fun target_asset_id =>
  then_ (item rel "type") (fun type =>
  then_ (item type "id") (fun relation_type_id =>
  Done {| source_id := source_asset_id;
          target_id := target_asset_id;
          relation_type_id := relation_type_id |}))))))).

(** The loop [for i, rel in enumerate(relations)], appending to
    [asset_relationships]. *)
Fixpoint normalise_all (relations : list json)
  (asset_relationships : list relationship)
  : outcome (list relationship) :=
  match relations with
  | [] => Done asset_relationships
  | rel :: rest =>
      then_ (normalise rel) (fun r =>
      normalise_all rest (asset_relationships ++ [r])%list)
  end.

(** The record [rel] has the seven fields the loop reads, and [r] is
    what the loop makes of it. *)
Definition projects (rel : json) (r : relationship) : Prop :=
  exists relation_id source target type,
    item rel "id" = Done relation_id
    /\ item rel "source" = Done source
    /\ item source "id" = Done (source_id r)
    /\ item rel "target" = Done target
    /\ item target "id" = Done (target_id r)
    /\ item rel "type" = Done type
    /\ item type "id" = Done (relation_type_id r).

Section Endpoints.

Variable COLLIBRA_URL : string.

(** [get_assets_by_type] *)
Definition get_assets_by_type (fuel : nat) (srv : Collibra.server json)
  (asset_type_id : value) :=
  Collibra.get_paginated_data fuel srv (COLLIBRA_URL ++ "/rest/2.0/assets")
    [("typeId", asset_type_id)].

(** [get_asset_relations] *)
Definition get_asset_relations (fuel : nat) (srv : Collibra.server json)
  (asset_id : value) :=
  Collibra.get_paginated_data fuel srv
    (COLLIBRA_URL ++ "/rest/2.0/relations") [("sourceId", asset_id)].

(** [get_all_collibra_relations], for the asset id of the configuration. *)
Definition get_all_collibra_relations (fuel : nat)
  (srv : Collibra.server json) (COLLIBRA_ASSET_ID : value)
  : outcome (list relationship) :=
  match fst (fst (get_asset_relations fuel srv COLLIBRA_ASSET_ID)) with
  | Return relations => normalise_all relations []
  | Raise e => Failed (Raised e)
  | Timeout => Stalled
  end.

End Endpoints.

End Extractor.

(** ** The asset loop of [knowgraphcollibra.py] *)

Module Script.
Import Py Gremlin Store Run Client Extractor.

(** Computations of the script: those of the client, with the errors the
    script itself can raise. *)
Definition S (A : Type) := world -> outcome A * world.

Definition pure {A} (a : A) : S A := fun w => (Done a, w).

Definition andthen {A B} (m : S A) (k : A -> S B) : S B :=
  fun w =>
    match m w with
    | (Done a, w') => k a w'
    | (Failed e, w') => (Failed e, w')
    | (Stalled, w') => (Stalled, w')
    end.

Definition fail {A} (e : error) : S A := fun w => (Failed e, w).

(** A call of the client inside the script. *)
Definition call {A} (m : M A) : S A :=
  fun w =>
    match m w with
    | (Return a, w') => (Done a, w')
    | (Raise e, w') => (Failed (Raised e), w')
    | (Timeout, w') => (Stalled, w')
    end.

(** A sub-object of an asset ([domain], [type], [status]): its fields are
    strings, or null. *)
Definition sub_object := list (string * option string).

(** An asset as the catalog gives it, by what the script reads of it: the
    scalar fields, and the three sub-objects, each absent ([None]), null
    ([Some None]) or an object. *)
Record asset := {
  a_fields : dict;
  a_domain : option (option sub_object);
  a_type : option (option sub_object);
  a_status : option (option sub_object)
}.

Definition asset_keys_to_extract : list string :=
  ["id"; "createdBy"; "createdOn"; "lastModifiedBy"; "lastModifiedOn";
   "system"; "resourceType"; "name"; "displayName"; "articulationScore";
   "excludedFromAutoHyperlinking"; "avgRating"; "ratingsCount"].

Definition domain_keys_to_extract : list string :=
  ["id"; "resourceType"; "resourceDiscriminator"; "name"].
Definition type_keys_to_extract : list string :=
  ["id"; "resourceType"; "resourceDiscriminator"; "name"].
Definition status_keys_to_extract : list string :=
  ["id"; "resourceType"; "resourceDiscriminator"; "name"].

(** The loops [for key in keys: try: data[key] = source[key] except
    KeyError: ...], from an empty [data]. *)
Definition extract (keys : list string) (source : dict) : dict :=
  fold_left (fun data key =>
               match get source key with
               | Some v => set data key v
               | None => data
               end) keys [].

Definition fields_of (obj : sub_object) : dict :=
  map (fun kv => (fst kv, Orchestrator.as_value (snd kv))) obj.

(** [data.get(key)] of a sub-object's data, as the string or [None] it
    is. *)
Definition text (v : option value) : option string :=
  match v with
  | Some (VStr s) => Some s
  | _ => None
  end.

(** [data.get('resourceType', default)] of a sub-object's data. *)
Definition label_or (data : dict) (default : string) : option string :=
  match get data "resourceType" with
  | None => Some default
  | found => text found
  end.

(** [asset.get('createdOn', 'unknown')] *)
Definition created_on (a : asset) : value :=
  match get (a_fields a) "createdOn" with
  | Some v => v
  | None => VStr "unknown"
  end.

(** [asset['id']] *)
Definition asset_id (a : asset) : S value :=
  match get (a_fields a) "id" with
  | Some v => pure v
  | None => fail (KeyError "id")
  end.

(** [vertex['id']] on what [upsert_vertex] returned: [None] and a number
    cannot be subscripted. *)
Definition vertex_id (vertex : option answer) : S string :=
  match vertex with
  | Some (AVertex v) => pure (v_id v)
  | Some (AEdge e) => pure (e_id e)
  | _ => fail TypeError
  end.

(** One of the three blocks [if kind in asset: ...]: the data of the
    sub-object, its upsert on the unique property [id], then the edge from
    the vertex the upsert returned to the asset. The subscript of a null
    sub-object raises in the first turn of the extraction. *)
Definition belongs_to (client : CosmosGraphClient) (a : asset)
  (kind default_label : string) (keys : list string)
  (sub : option sub_object) : S unit :=
  match sub with
  | None => fail TypeError
  | Some obj =>
      let data := extract keys (fields_of obj) in
      andthen (call (upsert_vertex client (label_or data default_label)
                       (text (get data "id")) (Some "id")
                       (text (get data "id")) data)) (fun vertex =>
      andthen (asset_id a) (fun to_id =>
      andthen (vertex_id vertex) (fun from_id =>
      andthen (call (create_edge client from_id (str to_id)
                       ("belongsTo_" ++ kind)
                       (Some [("since", created_on a)]))) (fun _ =>
      pure tt))))
  end.

Definition when_present (sub : option (option sub_object))
  (block : option sub_object -> S unit) : S unit :=
  match sub with
  | None => pure tt
  | Some s => block s
  end.

(** [asset_data.get('resourceType', 'Asset')], as the f-string of
    [create_vertex] writes it. *)
Definition asset_label (asset_data : dict) : string :=
  match get asset_data "resourceType" with
  | Some v => str v
  | None => "Asset"
  end.

(** The body of the loop [for asset in all_assets]. *)
Definition process_asset (client : CosmosGraphClient) (a : asset)
  : S unit :=
  let asset_data := extract asset_keys_to_extract (a_fields a) in
  andthen (call (create_vertex client (asset_label asset_data)
                   (Some asset_data))) (fun _ =>
  andthen (when_present (a_domain a)
             (belongs_to client a "domain" "Domain"
                domain_keys_to_extract)) (fun _ =>
  andthen (when_present (a_type a)
             (belongs_to client a "type" "Type" type_keys_to_extract))
    (fun _ =>
  when_present (a_status a)
    (belongs_to client a "status" "Status" status_keys_to_extract)))).

Fixpoint asset_loop (client : CosmosGraphClient) (all_assets : list asset)
  : S unit :=
  match all_assets with
  | [] => pure tt
  | a :: rest =>
      andthen (process_asset client a) (fun _ => asset_loop client rest)
  end.

(** The fields of [source] that [keys] names, in the order of [keys]. *)
Definition present (keys : list string) (source : dict) : dict :=
  flat_map (fun key => match get source key with
                       | Some v => [(key, v)]
                       | None => []
                       end) keys.

End Script.

(** ** What [upsert_vertex] refuses, and what a write gives back *)

Module Outcome.
Import Py Store Run Client.

(** The arguments the guard of [upsert_vertex] refuses: a label, an id or
    a unique property name that is [None] or empty, a unique value that is
    [None]. *)
Definition refused (label id_value unique_property_name
  unique_property_value : option string) : Prop :=
  truthy label = false \/ truthy id_value = false
  \/ truthy unique_property_name = false \/ unique_property_value = None.

(** The first result of the statement, when it has one, is a vertex of the
    store the statement leaves. *)
Definition yields_stored (t : traversal) : Prop :=
  forall g answers g' a,
    exec t g = Some (answers, g') ->
    first_result (Some answers) = Some a ->
    exists v, a = AVertex v /\ In v (vertices g').

End Outcome.

(** * Properties *)

Import Py Gremlin Store Run Client Invariant Scenario.

(** ** The statement builder *)

Section Builder.

Lemma append_nil_r (s : string) : s ++ "" = s.
Proof. induction s as [|c s IH]; simpl; [reflexivity | now rewrite IH]. Qed.

Lemma append_assoc (a b c : string) : (a ++ b) ++ c = a ++ (b ++ c).
Proof. induction a as [|x a IH]; simpl; [reflexivity | now rewrite IH]. Qed.

Lemma fold_left_append_clauses (step : string -> value -> string)
  (keep : string -> bool) (l : dict) (init : string) :
  fold_left (fun acc kv => if keep (fst kv) then acc
                           else acc ++ step (fst kv) (snd kv)) l init
  = init ++ clauses step (filter (fun kv => negb (keep (fst kv))) l).
Proof.
  revert init. induction l as [|[k v] l IH]; intros init; simpl.
  - now rewrite append_nil_r.
  - destruct (keep k); simpl.
    + apply IH.
    + rewrite IH. now rewrite append_assoc.
Qed.

Lemma filter_keep_all (l : dict) :
  filter (fun kv : string * value => negb false) l = l.
Proof.
  induction l as [|kv l IH]; [reflexivity | simpl; f_equal; exact IH].
Qed.

Lemma format_properties_clauses (properties : option dict) :
  _format_properties properties
  = clauses format_property_step (items properties).
Proof.
  destruct properties as [[|kv l]|]; try reflexivity.
  unfold _format_properties, items.
  rewrite (fold_left_append_clauses format_property_step (fun _ => false)).
  cbv beta. now rewrite filter_keep_all.
Qed.

(** The text of every statement the client builds is the text of the
    traversal the store is given for it. *)
Lemma find_text pk label uname uvalue :
  find_query pk label uname uvalue = render (Find pk label uname uvalue).
Proof. reflexivity. Qed.

Lemma update_text pk vertex_id label uname (filtered : dict) :
  update_query pk vertex_id label uname filtered
  = render (Update pk vertex_id label
              (filter (fun kv => negb (update_skips pk uname (fst kv)))
                      filtered)).
Proof.
  unfold update_query.
  rewrite (fold_left_append_clauses upsert_property_step
             (update_skips pk uname)).
  cbv zeta. unfold render. now rewrite ?append_assoc.
Qed.


Lemma create_vertex_text label properties :
  create_vertex_query label properties
  = render (AddV label (items properties)).
Proof.
  unfold create_vertex_query. rewrite format_properties_clauses.
  cbv zeta. unfold render. now rewrite ?append_assoc.
Qed.

Lemma create_edge_text from_id to_id label properties :
  create_edge_query from_id to_id label properties
  = render (AddE from_id to_id label (items properties)).
Proof.
  unfold create_edge_query. rewrite format_properties_clauses.
  cbv zeta. unfold render. now rewrite ?append_assoc.
Qed.

Lemma drain_texts n :
  q_text Orchestrator.count_query = render (q_sem Orchestrator.count_query)
  /\ q_text (Orchestrator.drop_query n)
     = render (q_sem (Orchestrator.drop_query n)).
Proof. split; reflexivity. Qed.


Lemma escape_quotes_escaped_from (previous : ascii) (s : string) :
  quotes_escaped_from previous (_escape_gremlin_string s) = true.
Proof.
  revert previous. induction s as [|c s IH]; intros previous; simpl.
  - reflexivity.
  - destruct (Ascii.eqb c quote) eqn:E; simpl.
    + now rewrite IH.
    + now rewrite E, IH.
Qed.

(** What [_escape_gremlin_string] returns has every quote behind a
    backslash. *)
Lemma escape_quotes_escaped (s : string) :
  quotes_escaped (_escape_gremlin_string s) = true.
Proof. apply escape_quotes_escaped_from. Qed.

End Builder.

(** ** The client *)

Ltac run :=
  unfold bind, ret, raise, print, try_except, out_of_fuel; simpl.

Section ClientFacts.

Lemma init_disconnected pk : disconnected (init pk).
Proof. repeat split. Qed.

Lemma close_disconnected self : disconnected (close self).
Proof. repeat split. Qed.

Lemma connect_connected self :
  disconnected self -> connected (connect self).
Proof.
  intros [H _]. unfold connect. rewrite H. split; reflexivity.
Qed.

(** [_execute_query] returns whatever happens: every error of the
    submission is caught. On a connected client the text is sent. *)
Lemma execute_query_returns self q w :
  exists answers w',
    _execute_query self q w = (Return answers, w')
    /\ wire w' = (wire w ++ match gremlin_client self with
                            | Some _ => [q_text q]
                            | None => []
                            end)%list.
Proof.
  unfold _execute_query, submit.
  destruct (gremlin_client self) as [h|].
  - unfold try_except, send.
    destruct (faults w) as [|[|] rest]; simpl;
      try (destruct (exec (q_sem q) (store w)) as [[answers g']|]; simpl);
      eexists; eexists; split; try reflexivity; reflexivity.
  - run. eexists; eexists; split; [reflexivity|]. simpl.
    now rewrite app_nil_r.
Qed.

(** With no fault to come, [_execute_query] on a connected client is the
    store's own answer. *)
Lemma execute_query_connected self q w :
  gremlin_client self = Some Handle -> faults w = [] ->
  _execute_query self q w =
  match exec (q_sem q) (store w) with
  | Some (answers, g') =>
      (Return answers,
       {| store := g'; faults := []; wire := (wire w ++ [q_text q])%list;
          console := console w |})
  | None =>
      (Return [],
       logged (QueryExecutionError GremlinServerError)
         {| store := store w; faults := [];
            wire := (wire w ++ [q_text q])%list; console := console w |})
  end.
Proof.
  intros Hc Hf. unfold _execute_query, submit. rewrite Hc.
  unfold try_except, send. rewrite Hf.
  destruct (exec (q_sem q) (store w)) as [[answers g']|]; reflexivity.
Qed.

(** [_execute_gremlin_query] returns whatever happens. On a client that
    holds a handle the text is sent; with no fault to come the result is
    the store's own answer. *)
Lemma execute_gremlin_query_sends self q w :
  gremlin_client self <> None ->
  exists results w',
    _execute_gremlin_query self q w = (Return results, w')
    /\ wire w' = (wire w ++ [q_text q])%list.
Proof.
  intros Hc. unfold _execute_gremlin_query, submit.
  destruct (gremlin_client self) as [h|]; [|congruence].
  unfold try_except, bind, send.
  destruct (faults w) as [|[|] rest]; simpl;
    try (destruct (exec (q_sem q) (store w)) as [[answers g']|]; simpl);
    eexists; eexists; split; reflexivity.
Qed.

Lemma execute_gremlin_query_connected self q w :
  gremlin_client self = Some Handle -> faults w = [] ->
  _execute_gremlin_query self q w =
  match exec (q_sem q) (store w) with
  | Some (answers, g') =>
      (Return (Some answers),
       {| store := g'; faults := []; wire := (wire w ++ [q_text q])%list;
          console := console w |})
  | None =>
      (Return None,
       logged (GremlinQueryError (q_text q) GremlinServerError)
         {| store := store w; faults := [];
            wire := (wire w ++ [q_text q])%list; console := console w |})
  end.
Proof.
  intros Hc Hf. unfold _execute_gremlin_query, submit. rewrite Hc.
  unfold try_except, bind, send. rewrite Hf.
  destruct (exec (q_sem q) (store w)) as [[answers g']|]; reflexivity.
Qed.

Lemma find_vertex_needs_client self label uname uvalue w a w1 :
  _find_vertex self label uname uvalue w = (Return (Some a), w1) ->
  gremlin_client self <> None.
Proof.
  unfold _find_vertex, _execute_gremlin_query, submit.
  destruct (gremlin_client self); [congruence|].
  run. intros H. inversion H.
Qed.

Lemma truthy_nonempty (s : string) : s <> "" -> truthy (Some s) = true.
Proof. destruct s; [congruence | reflexivity]. Qed.

Lemma create_edge_returns self from_id to_id label properties w :
  exists answers w',
    create_edge self from_id to_id label properties w = (Return answers, w')
    /\ (connected self ->
        wire w' = (wire w ++ [create_edge_query from_id to_id label
                                properties])%list).
Proof.
  unfold create_edge. destruct (g self) as [h|] eqn:Hg.
  - destruct (execute_query_returns self
                {| q_text := create_edge_query from_id to_id label
                               properties;
                   q_sem := AddE from_id to_id label (items properties) |} w)
      as (answers & w' & Hrun & Hwire).
    exists answers, w'. split; [exact Hrun|].
    intros [Hc _]. rewrite Hc in Hwire. exact Hwire.
  - run. eexists; eexists; split; [reflexivity|].
    intros [_ Hg']. congruence.
Qed.

End ClientFacts.

(** ** Validation of the arguments of [upsert_vertex] *)

(** C6, as the code has it. When [label], [id_value] or
    [unique_property_name] is [None] or empty, or when
    [unique_property_value] is [None], [upsert_vertex] prints its argument
    error and returns [None] at once: nothing is sent, the store is not
    touched. An empty [unique_property_value] is not among the rejected
    inputs. *)
Theorem upsert_rejects_missing_argument
  (self : CosmosGraphClient)
  (label id_value unique_property_name unique_property_value : option string)
  (properties : dict) (w : world) :
  truthy label = false \/ truthy id_value = false
  \/ truthy unique_property_name = false \/ unique_property_value = None ->
  upsert_vertex self label id_value unique_property_name
    unique_property_value properties w
  = (Return None, logged UpsertArgumentsRequired w)
  /\ wire (logged UpsertArgumentsRequired w) = wire w
  /\ store (logged UpsertArgumentsRequired w) = store w.
Proof.
  intros H. split; [|split; reflexivity].
  unfold upsert_vertex.
  assert (negb (truthy label) || negb (truthy id_value)
          || negb (truthy unique_property_name)
          || is_None unique_property_value = true) as ->.
  { destruct H as [H|[H|[H|H]]]; rewrite H; simpl;
      rewrite ?orb_true_r; reflexivity. }
  reflexivity.
Qed.

Lemma upsert_rejects_missing_argument_witness :
  upsert_vertex (connect (init "resourceType")) (Some "Domain") (Some "D1")
    (Some "id") None [] (start (holding []))
  = (Return None, logged UpsertArgumentsRequired (start (holding []))).
Proof.
  apply (upsert_rejects_missing_argument (connect (init "resourceType"))
           (Some "Domain") (Some "D1") (Some "id") None []
           (start (holding []))).
  right; right; right; reflexivity.
Defined.

(** C6 as stated fails on an empty [unique_property_value]: the empty
    string passes the test [is None], and the lookup and the creation are
    both sent. *)
Lemma upsert_empty_unique_value_is_sent :
  truthy (Some "") = false
  /\ wire (snd (upsert_vertex (connect (init "resourceType"))
                  (Some "Domain") (Some "D1") (Some "name") (Some "") []
                  (start (holding []))))
     = [ "g.V().hasLabel('Domain').has('resourceType', 'Domain').has('name', '').limit(1)";
         "g.addV('Domain').property('id', 'D1').property('resourceType', 'Domain').property('name', '')" ].
Proof. split; reflexivity. Qed.

(** ** Operations on a disconnected client *)

(** C9. On a disconnected client [_execute_query] (and [run_query]),
    [create_vertex] and [create_edge] print their not-connected error and
    return the empty list; [upsert_vertex] returns [None], the failed
    attribute access on the missing client being caught and printed. None
    of them raises, sends a statement or changes the store. *)
Theorem disconnected_operations_return_empty
  (self : CosmosGraphClient) (w : world) :
  disconnected self ->
  (forall q, _execute_query self q w = (Return [], logged NotConnected w))
  /\ (forall q, run_query self q w = (Return [], logged NotConnected w))
  /\ (forall label properties,
        create_vertex self label properties w
        = (Return [], logged TraversalNotInitialized w))
  /\ (forall from_id to_id label properties,
        create_edge self from_id to_id label properties w
        = (Return [], logged TraversalNotInitialized w))
  /\ (forall label id_value uname uvalue properties,
        exists printed,
          printed <> []
          /\ upsert_vertex self label id_value uname uvalue properties w
             = (Return None,
                {| store := store w; faults := faults w; wire := wire w;
                   console := (console w ++ printed)%list |})).
Proof.
  intros (Hc & _ & Hg). repeat split; intros.
  - unfold _execute_query. now rewrite Hc.
  - unfold run_query, _execute_query. now rewrite Hc.
  - unfold create_vertex. now rewrite Hg.
  - unfold create_edge. now rewrite Hg.
  - unfold upsert_vertex.
    destruct (negb (truthy label) || negb (truthy id_value)
              || negb (truthy uname) || is_None uvalue).
    + exists [UpsertArgumentsRequired]. split; [discriminate | reflexivity].
    + unfold _find_vertex, _execute_gremlin_query, submit. rewrite Hc.
      run. unfold logged; simpl. eexists. split; cycle 1.
      * rewrite <- app_assoc. reflexivity.
      * discriminate.
Qed.

Lemma disconnected_operations_return_empty_witness :
  create_edge (init "resourceType") "A1" "A2" "relatedTo" None
    (start (holding []))
  = (Return [], logged TraversalNotInitialized (start (holding []))).
Proof.
  apply (disconnected_operations_return_empty (init "resourceType")
           (start (holding []))).
  repeat split.
Defined.

(** What the disconnected [upsert_vertex] prints on well-formed arguments:
    the two statements it built, each with the attribute error that the
    missing client raised. *)
Example disconnected_upsert_run :
  upsert_vertex (init "resourceType") (Some "Domain") (Some "D1")
    (Some "id") (Some "D1") [("name", VStr "Sales")]
    (start (holding []))
  = (Return None,
     {| store := holding []; faults := []; wire := [];
        console :=
          [ GremlinQueryError
              "g.V().hasLabel('Domain').has('resourceType', 'Domain').has('id', 'D1').limit(1)"
              AttributeError;
            GremlinQueryError
              "g.addV('Domain').property('id', 'D1').property('resourceType', 'Domain').property('name', 'Sales')"
              AttributeError ] |}).
Proof. reflexivity. Qed.

(** ** The update statement of [upsert_vertex] *)


Lemma without_id_label_In (properties : dict) (kv : string * value) :
  In kv (without_id_label properties)
  <-> In kv properties /\ fst kv <> "id" /\ fst kv <> "label".
Proof.
  unfold without_id_label. rewrite filter_In.
  rewrite negb_true_iff, orb_false_iff, !String.eqb_neq. tauto.
Qed.

Lemma contains_last (l : dict) (key : string) (x : value) :
  contains (l ++ [(key, x)])%list key = true.
Proof.
  unfold contains.
  induction l as [|[k y] l IH]; simpl.
  - now rewrite String.eqb_refl.
  - destruct (String.eqb k key); [reflexivity | exact IH].
Qed.

(** The unique property is present in [filtered_properties]. *)
Lemma filtered_properties_contains uname uvalue properties :
  contains (filtered_properties uname uvalue properties) uname = true.
Proof.
  unfold filtered_properties. fold (without_id_label properties).
  destruct (contains (without_id_label properties) uname) eqn:E.
  - exact E.
  - apply contains_last.
Qed.

(** Its entries are those of the input whose key is neither [id] nor
    [label], and the unique property when the input did not have it. *)
Lemma filtered_properties_In uname uvalue properties kv :
  In kv (filtered_properties uname uvalue properties)
  <-> (In kv properties /\ fst kv <> "id" /\ fst kv <> "label")
      \/ (kv = (uname, VStr uvalue)
          /\ contains (without_id_label properties) uname = false).
Proof.
  unfold filtered_properties. fold (without_id_label properties).
  destruct (contains (without_id_label properties) uname) eqn:E.
  - rewrite without_id_label_In. split; [tauto|].
    intros [H|[_ H]]; [exact H | discriminate].
  - rewrite in_app_iff, without_id_label_In. simpl. split.
    + intros [H|[H|[]]]; [left; exact H | right; split; congruence].
    + intros [H|[H _]]; [left; exact H | right; left; congruence].
Qed.

Lemma contains_existsb (d : dict) (key : string) :
  contains d key = existsb (fun kv => String.eqb (fst kv) key) d.
Proof.
  unfold contains. induction d as [|[k x] rest IH]; [reflexivity|].
  simpl. destruct (String.eqb k key); [reflexivity | exact IH].
Qed.

Lemma clauses_concat (step : string -> value -> string) (assigns : dict) :
  clauses step assigns
  = String.concat "" (map (fun kv => step (fst kv) (snd kv)) assigns).
Proof.
  induction assigns as [|[k x] rest IH]; [reflexivity|].
  cbn [clauses map fst snd]. rewrite IH.
  destruct rest as [|kv rest]; [apply append_nil_r | reflexivity].
Qed.

(** C7. When the lookup of [upsert_vertex] returns a vertex (whose id is a
    non-empty string), the next statement sent selects that vertex by its
    escaped id and the partition key, then carries, in the order of
    [filtered_properties], exactly one property clause for each of its
    entries whose key is not the unique property, the partition key field or
    [id], and no other clause. The clause of an entry holds its escaped key
    and its value, a string escaped and between quotes, any other value as
    [str] gives it. [filtered_properties] is the input without its [id] and
    [label] entries, in the order of the input, followed by the unique
    property when no entry has that key.

    The statement spells the three lists and the clause out, from the
    input alone. *)
Theorem upsert_update_statement
  (self : CosmosGraphClient) (label id_value uname uvalue : string)
  (properties : dict) (w w1 : world) (v : vertex) :
  label <> "" -> id_value <> "" -> uname <> "" ->
  _find_vertex self label uname uvalue w = (Return (Some (AVertex v)), w1) ->
  v_id v <> "" ->
  let pk := partition_key_field self in
  let kept :=
    filter (fun kv => negb (String.eqb (fst kv) "id"
                            || String.eqb (fst kv) "label")) properties in
  let filtered :=
    if existsb (fun kv => String.eqb (fst kv) uname) kept
    then kept
    else (kept ++ [(uname, VStr uvalue)])%list in
  let assigned :=
    filter (fun kv => negb (String.eqb (fst kv) uname
                            || String.eqb (fst kv) pk
                            || String.eqb (fst kv) "id")) filtered in
  let clause (kv : string * value) :=
    match snd kv with
    | VStr s =>
        ".property('" ++ _escape_gremlin_string (fst kv) ++ "', '"
        ++ _escape_gremlin_string s ++ "')"
    | _ =>
        ".property('" ++ _escape_gremlin_string (fst kv) ++ "', "
        ++ str (snd kv) ++ ")"
    end in
  exists r w2,
    upsert_vertex self (Some label) (Some id_value) (Some uname)
      (Some uvalue) properties w = (Return r, w2)
    /\ wire w2
       = (wire w1
          ++ [ ("g.V('" ++ _escape_gremlin_string (v_id v) ++ "')"
                ++ ".has('" ++ pk ++ "', '"
                ++ _escape_gremlin_string label ++ "')"
                ++ String.concat "" (map clause assigned))%string ])%list
    /\ filtered = filtered_properties uname uvalue properties
    /\ Forall (fun kv => fst kv <> uname /\ fst kv <> pk
                         /\ fst kv <> "id") assigned
    /\ (forall kv, In kv assigned <->
          In kv filtered
          /\ fst kv <> uname /\ fst kv <> pk /\ fst kv <> "id")
    /\ contains filtered uname = true
    /\ (forall kv, In kv filtered <->
          (In kv properties /\ fst kv <> "id" /\ fst kv <> "label")
          \/ (kv = (uname, VStr uvalue)
              /\ contains (without_id_label properties) uname = false)).
Proof.
  intros Hl Hi Hu Hfind Hid pk kept filtered assigned clause.
  assert (filtered_properties uname uvalue properties = filtered) as Hf.
  { unfold filtered_properties, without_id_label. cbv zeta.
    rewrite contains_existsb. reflexivity. }
  assert (forall kv, In kv assigned <->
            In kv filtered
            /\ fst kv <> uname /\ fst kv <> pk /\ fst kv <> "id") as Hin.
  { intros kv. unfold assigned. rewrite filter_In, negb_true_iff.
    rewrite !orb_false_iff, !String.eqb_neq. tauto. }
  pose proof (find_vertex_needs_client _ _ _ _ _ _ _ Hfind) as Hc.
  destruct (execute_gremlin_query_sends self
              {| q_text := update_query pk (v_id v) label uname
                             (filtered_properties uname uvalue properties);
                 q_sem := Update pk (v_id v) label
                            (filter (fun kv =>
                                       negb (update_skips pk uname (fst kv)))
                               (filtered_properties uname uvalue
                                  properties)) |} w1 Hc)
    as (results & w2 & Hrun & Hwire).
  exists (first_result results), w2.
  split; [|split; [|split; [|split; [|split; [|split]]]]].
  - unfold upsert_vertex.
    rewrite (truthy_nonempty label Hl), (truthy_nonempty id_value Hi),
      (truthy_nonempty uname Hu).
    cbn [negb orb is_None unwrap].
    unfold bind at 1. rewrite Hfind.
    cbn [found].
    unfold bind at 1. cbn [get_id ret].
    rewrite (truthy_nonempty (v_id v) Hid). cbn [negb unwrap].
    unfold bind at 1.
    fold pk. rewrite Hrun. reflexivity.
  - rewrite Hwire. cbn [q_text]. rewrite update_text. unfold render.
    rewrite Hf, clauses_concat. reflexivity.
  - symmetry. exact Hf.
  - apply Forall_forall. intros kv Hkv. now apply Hin in Hkv.
  - exact Hin.
  - rewrite <- Hf. apply filtered_properties_contains.
  - rewrite <- Hf. apply filtered_properties_In.
Qed.

Lemma upsert_update_statement_witness :
  let self := connect (init "resourceType") in
  let v := {| v_id := "D1"; v_label := "Domain";
              v_props := [("resourceType", VStr "Domain");
                          ("name", VStr "Sales"); ("owner", VStr "Ann")] |} in
  exists r w2,
    upsert_vertex self (Some "Domain") (Some "D1") (Some "name")
      (Some "Sales")
      [("id", VStr "D1"); ("resourceType", VStr "Domain");
       ("name", VStr "Sales"); ("label", VStr "x");
       ("owner", VStr "O'Neil"); ("rank", VInt 3);
       ("system", VBool true)]
      (start (holding [v])) = (Return r, w2)
    /\ wire w2
       = [ "g.V().hasLabel('Domain').has('resourceType', 'Domain').has('name', 'Sales').limit(1)";
           "g.V('D1').has('resourceType', 'Domain').property('owner', 'O\'Neil').property('rank', 3).property('system', True)" ].
Proof.
  intros self v.
  destruct (upsert_update_statement self "Domain" "D1" "name" "Sales"
              [("id", VStr "D1"); ("resourceType", VStr "Domain");
               ("name", VStr "Sales"); ("label", VStr "x");
               ("owner", VStr "O'Neil"); ("rank", VInt 3);
               ("system", VBool true)]
              (start (holding [v]))
              (snd (_find_vertex self "Domain" "name" "Sales"
                      (start (holding [v])))) v)
    as (r & w2 & Hrun & Hwire & _).
  - discriminate.
  - discriminate.
  - discriminate.
  - reflexivity.
  - discriminate.
  - exists r, w2. split; [exact Hrun|]. rewrite Hwire. reflexivity.
Defined.

(** ** The relation loop of the migration script *)

Section Relations.
Import Orchestrator.

Lemma relation_loop_each client rels w :
  relation_loop client rels w
  = each (create_relation_edge client) (filter has_both_ends rels) w.
Proof.
  revert w. induction rels as [|rel rest IH]; intros w; [reflexivity|].
  simpl. destruct (has_both_ends rel); simpl.
  - unfold bind at 1 3. unfold bind at 1.
    destruct (create_relation_edge client rel w) as [[a|e|] w']; simpl;
      try reflexivity.
    apply IH.
  - unfold bind at 1. simpl. apply IH.
Qed.

Lemma each_create_relation_edge client rels w :
  exists w',
    each (create_relation_edge client) rels w = (Return tt, w')
    /\ (connected client ->
        wire w'
        = (wire w
           ++ map (fun rel =>
                     create_edge_query (unwrap (source_id rel))
                       (unwrap (target_id rel)) "relatedTo"
                       (Some [("relationTypeId",
                               as_value (relation_type_id rel))]))
                  rels)%list).
Proof.
  revert w. induction rels as [|rel rest IH]; intros w; simpl.
  - exists w. split; [reflexivity|]. intros _. now rewrite app_nil_r.
  - unfold create_relation_edge at 1.
    destruct (create_edge_returns client (unwrap (source_id rel))
                (unwrap (target_id rel)) "relatedTo"
                (Some [("relationTypeId", as_value (relation_type_id rel))])
                w) as (answers & w1 & Hrun & Hwire).
    destruct (IH w1) as (w' & Hrest & Hwire').
    exists w'. split.
    + unfold bind. rewrite Hrun. exact Hrest.
    + intros Hc. rewrite (Hwire' Hc), (Hwire Hc), <- app_assoc.
      reflexivity.
Qed.

(** C10. The relation loop calls [create_edge], with label [relatedTo],
    for exactly the relations whose [source_id] and [target_id] are both
    present and non-empty, in their order: a relation lacking one of them
    contributes no call, prints nothing and does not stop the loop, which
    always runs to its end. On a connected client the statements sent are
    the edge statements of those relations. *)
Theorem relation_loop_creates_edges_for_complete_relations
  (client : CosmosGraphClient) (all_relations : list relation) (w : world) :
  relation_loop client all_relations w
  = each (create_relation_edge client)
      (filter has_both_ends all_relations) w
  /\ (forall rel rest,
        has_both_ends rel = false ->
        relation_loop client (rel :: rest) w = relation_loop client rest w)
  /\ (forall rel,
        has_both_ends rel = true <->
        (exists s t, source_id rel = Some s /\ s <> ""
                     /\ target_id rel = Some t /\ t <> ""))
  /\ exists w',
       relation_loop client all_relations w = (Return tt, w')
       /\ (connected client ->
           wire w'
           = (wire w
              ++ map (fun rel =>
                        create_edge_query (unwrap (source_id rel))
                          (unwrap (target_id rel)) "relatedTo"
                          (Some [("relationTypeId",
                                  as_value (relation_type_id rel))]))
                     (filter has_both_ends all_relations))%list).
Proof.
  split; [apply relation_loop_each|]. split; [|split].
  - intros rel rest H. simpl. rewrite H. reflexivity.
  - intros [[[|c s]|] [[|d t]|] r]; unfold has_both_ends; simpl; split;
      try discriminate;
      try (intros (s' & t' & H1 & H2 & H3 & H4); congruence).
    intros _. exists (String c s), (String d t).
    repeat split; discriminate.
  - rewrite relation_loop_each. apply each_create_relation_edge.
Qed.

Lemma relation_loop_creates_edges_for_complete_relations_witness :
  wire (snd (relation_loop (connect (init "resourceType"))
               [ {| source_id := Some "A1"; target_id := Some "A2";
                    relation_type_id := Some "R1" |};
                 {| source_id := Some "A1"; target_id := Some "";
                    relation_type_id := Some "R2" |};
                 {| source_id := None; target_id := Some "A3";
                    relation_type_id := Some "R3" |};
                 {| source_id := Some "A2"; target_id := Some "A3";
                    relation_type_id := None |} ]
               (start (holding []))))
  = [ "g.V('A1').addE('relatedTo').to(g.V('A2')).property('relationTypeId', 'R1')";
      "g.V('A2').addE('relatedTo').to(g.V('A3')).property('relationTypeId', None)" ].
Proof.
  destruct (relation_loop_creates_edges_for_complete_relations
              (connect (init "resourceType"))
              [ {| source_id := Some "A1"; target_id := Some "A2";
                   relation_type_id := Some "R1" |};
                {| source_id := Some "A1"; target_id := Some "";
                   relation_type_id := Some "R2" |};
                {| source_id := None; target_id := Some "A3";
                   relation_type_id := Some "R3" |};
                {| source_id := Some "A2"; target_id := Some "A3";
                   relation_type_id := None |} ]
              (start (holding [])))
    as (_ & _ & _ & w' & Hrun & Hwire).
  rewrite Hrun. simpl. rewrite Hwire; [reflexivity|].
  split; reflexivity.
Defined.

End Relations.

(** ** The drain loop of the migration script *)

Section Drain.
Import Orchestrator.

(** Rounding up: the batches of [n] that [k] vertices fill. *)
Lemma batches_step (k n : nat) :
  0 < n -> 0 < k -> (k + n - 1) / n = S ((k - n + n - 1) / n).
Proof.
  intros Hn Hk. destruct (le_lt_dec n k) as [Hle|Hlt].
  - replace (k + n - 1) with (k - n + n - 1 + 1 * n) by lia.
    rewrite Nat.div_add by lia. lia.
  - replace (k - n) with 0 by lia.
    replace (k + n - 1) with (k - 1 + 1 * n) by lia.
    rewrite Nat.div_add by lia.
    rewrite !Nat.div_small by lia. reflexivity.
Qed.

Lemma drain_loop_run (client : CosmosGraphClient) (drop_limit : Z) :
  connected client -> (0 < drop_limit)%Z ->
  forall (fuel : nat) (w : world),
    faults w = [] ->
    let n := Z.to_nat drop_limit in
    let k := List.length (vertices (store w)) in
    (k + n - 1) / n < fuel ->
    exists w',
      drain_loop fuel client drop_limit w = (Return tt, w')
      /\ vertices (store w') = []
      /\ wire w'
         = (wire w
            ++ concat (repeat [q_text count_query;
                               q_text (Orchestrator.drop_query drop_limit)]
                              ((k + n - 1) / n))
            ++ [q_text count_query])%list.
Proof.
  intros [Hc _] Hpos. induction fuel as [|fuel IH]; intros w Hf n k Hfuel.
  - lia.
  - cbn [drain_loop]. unfold bind at 1. unfold run_query at 1.
    rewrite (execute_query_connected client count_query w Hc Hf).
    cbn [q_sem count_query exec].
    unfold bind at 1. cbn [item0 ret equals_zero].
    destruct (vertices (store w)) as [|v vs] eqn:Hvs.
    + cbn [List.length Z.of_nat Z.eqb].
      eexists. split; [reflexivity|]. cbn [store]. split; [exact Hvs|].
      subst k. cbn [List.length]. replace (0 + n - 1) with (n - 1) by lia.
      rewrite Nat.div_small by lia. reflexivity.
    + replace (Z.eqb (Z.of_nat (List.length (v :: vs))) 0) with false
        by (symmetry; apply Z.eqb_neq; cbn [List.length]; lia).
      unfold bind at 1. unfold run_query at 1.
      rewrite execute_query_connected by (try exact Hc; reflexivity).
      cbn [q_sem Orchestrator.drop_query exec store].
      rewrite Hvs.
      match goal with
      | |- context [drain_loop fuel client drop_limit ?w1] =>
          destruct (IH w1 eq_refl) as (w' & Hrun & Hempty & Hwire)
      end.
      * cbn [store vertices]. rewrite length_skipn.
        fold n. subst k.
        rewrite (batches_step (List.length (v :: vs)) n) in Hfuel
          by (cbn [List.length]; lia).
        lia.
      * exists w'. split; [exact Hrun|]. split; [exact Hempty|].
        rewrite Hwire. cbn [store vertices wire].
        rewrite length_skipn. fold n. subst k.
        rewrite (batches_step (List.length (v :: vs)) n)
          by (cbn [List.length]; lia).
        cbn [repeat concat]. rewrite <- !app_assoc. reflexivity.
Qed.

(** C8. On a connected client whose submissions go through, the drain of a
    store of [K] vertices in batches of [N] (the script has [N = 10])
    terminates, having sent [ceil(K/N)] times a count followed by a drop of
    [N] vertices, then one last count, which finds none: the store is left
    empty. *)
Theorem drain_empties_store
  (client : CosmosGraphClient) (w : world) (N : Z) (K fuel : nat) :
  connected client -> faults w = [] -> (0 < N)%Z ->
  List.length (vertices (store w)) = K ->
  (K + Z.to_nat N - 1) / Z.to_nat N < fuel ->
  exists w',
    drain_loop fuel client N w = (Return tt, w')
    /\ vertices (store w') = []
    /\ wire w'
       = (wire w
          ++ concat (repeat ["g.V().count()";
                             ("g.V().limit(" ++ str (VInt N) ++ ").drop()")
                             %string]
                            ((K + Z.to_nat N - 1) / Z.to_nat N))
          ++ ["g.V().count()"])%list
    /\ exec Count (store w') = Some ([ANum 0], store w').
Proof.
  intros Hc Hf HN HK Hfuel. subst K.
  destruct (drain_loop_run client N Hc HN fuel w Hf Hfuel)
    as (w' & Hrun & Hempty & Hwire).
  exists w'. repeat split; try assumption.
  cbn [exec]. now rewrite Hempty.
Qed.


Lemma drain_empties_store_witness :
  exists w',
    drain 4 (connect (init "resourceType"))
      (start (holding (some_vertices 23))) = (Return tt, w')
    /\ vertices (store w') = []
    /\ wire w'
       = [ "g.V().count()"; "g.V().limit(10).drop()";
           "g.V().count()"; "g.V().limit(10).drop()";
           "g.V().count()"; "g.V().limit(10).drop()";
           "g.V().count()" ].
Proof.
  destruct (drain_empties_store (connect (init "resourceType"))
              (start (holding (some_vertices 23))) 10 23 4)
    as (w' & Hrun & Hempty & Hwire & _).
  - split; reflexivity.
  - reflexivity.
  - reflexivity.
  - reflexivity.
  - vm_compute. lia.
  - exists w'. split; [exact Hrun|]. split; [exact Hempty|].
    rewrite Hwire. reflexivity.
Defined.

End Drain.

(** ** The paginated fetchers *)

Section Fetching.
Import Collibra.

Context {R : Type}.
Variable COLLIBRA_URL : string.

(** Every request of [get_paginated_data] is the bare endpoint. *)
Lemma paginated_loop_requests (fuel : nat) (srv : server R) :
  forall sent endpoint params all_results total offset trace,
    Forall (fun rq => rq = paginated_request endpoint) trace ->
    Forall (fun rq => rq = paginated_request endpoint)
      (snd (fst (paginated_loop fuel srv sent endpoint params all_results
                   total offset trace))).
Proof.
  induction fuel as [|fuel IH]; intros sent endpoint params all_results
    total offset trace Htrace; simpl.
  - destruct (len all_results <? total)%Z; exact Htrace.
  - destruct (len all_results <? total)%Z; [|exact Htrace].
    assert (Forall (fun rq => rq = paginated_request endpoint)
              (trace ++ [paginated_request endpoint])) as Htrace'.
    { apply Forall_app. split; [exact Htrace|]. now constructor. }
    destruct (srv sent (paginated_request endpoint))
      as [|status_code data]; [exact Htrace'|].
    destruct (is_error_status status_code); [exact Htrace'|].
    apply IH. exact Htrace'.
Qed.

(** C5, where the code departs from it. Whatever the filters of the caller
    and whatever the catalog answers, each request [get_paginated_data]
    sends is the endpoint alone: it has no parameter set, and the query the
    server decodes holds neither the filters, nor an offset, nor a limit.
    The offset and the limit are written into the dictionary of the caller
    and go no further. *)
Theorem paginated_requests_carry_no_parameters
  (fuel : nat) (srv : server R) (endpoint : string) (filters : dict) :
  Forall (fun rq => url rq = endpoint /\ params rq = None /\ query rq = [])
    (snd (fst (get_paginated_data fuel srv endpoint filters))).
Proof.
  unfold get_paginated_data.
  eapply Forall_impl;
    [|apply paginated_loop_requests; constructor].
  intros rq ->. repeat split.
Qed.

(** *** A failed request *)

Lemma nth_error_single_inv {A} (x y : A) (j : nat) :
  nth_error [x] j = Some y -> j = 0 /\ y = x.
Proof.
  destruct j as [|[|j]]; simpl; intros H; inversion H; auto.
Qed.

Lemma assets_loop_aborts (srv : server R) (fuel : nat) :
  forall sent offset assets response trace0,
  exists new,
    snd (assets_loop COLLIBRA_URL fuel srv sent offset assets response
           trace0) = (trace0 ++ new)%list
    /\ forall j rq,
         nth_error new j = Some rq ->
         http_error (srv (sent + j) rq)
         \/ (srv (sent + j) rq = ConnectionError
             /\ (response <> None \/ 0 < j)) ->
         fst (assets_loop COLLIBRA_URL fuel srv sent offset assets response
                trace0)
         = Return (assets ++ received srv sent new)%list
         /\ S j = List.length new.
Proof.
  induction fuel as [|fuel IH]; intros sent offset assets response trace0.
  - exists []. split; [simpl; now rewrite app_nil_r|].
    intros [|j] rq H; discriminate.
  - cbn [assets_loop].
    set (rq0 := assets_request COLLIBRA_URL offset assets_limit).
    destruct (srv sent rq0) as [|status_code data] eqn:Hreply.
    + (* the request raised *)
      exists [rq0]. destruct response as [r|]; (split; [reflexivity|]);
        intros j rq Hj Hfail;
        apply nth_error_single_inv in Hj; destruct Hj as [-> ->];
        rewrite Nat.add_0_r, Hreply in Hfail.
      * split; [|reflexivity]. cbn [fst received].
        rewrite Hreply. now rewrite app_nil_r.
      * destruct Hfail as [[]|[_ [H|H]]]; [congruence | lia].
    + destruct (is_error_status status_code) eqn:Hstatus.
      * (* a 4xx or 5xx response *)
        exists [rq0]. split; [reflexivity|].
        intros j rq Hj Hfail.
        apply nth_error_single_inv in Hj; destruct Hj as [-> ->].
        split; [|reflexivity]. cbn [fst received].
        rewrite Hreply, Hstatus. now rewrite app_nil_r.
      * destruct (len (assets ++ or_empty (data_results data))
                  >=? or_zero (data_total data))%Z.
        -- (* the last page *)
           exists [rq0]. split; [reflexivity|].
           intros j rq Hj Hfail.
           apply nth_error_single_inv in Hj; destruct Hj as [-> ->].
           rewrite Nat.add_0_r, Hreply in Hfail. simpl in Hfail.
           destruct Hfail as [H|[H _]]; congruence.
        -- (* one more turn *)
           destruct (IH (S sent)
                       (offset + len (or_empty (data_results data)))%Z
                       (assets ++ or_empty (data_results data))%list
                       (Some (Response status_code data))
                       (trace0 ++ [rq0])%list)
             as (new & Htrace & Hnew).
           exists (rq0 :: new). split.
           { rewrite Htrace, <- app_assoc. reflexivity. }
           intros [|j] rq Hj Hfail.
           ++ simpl in Hj. inversion Hj; subst rq.
              rewrite Nat.add_0_r, Hreply in Hfail. simpl in Hfail.
              destruct Hfail as [H|[H _]]; congruence.
           ++ simpl in Hj. rewrite Nat.add_succ_r in Hfail.
              destruct (Hnew j rq Hj) as [Hout Hlen].
              { destruct Hfail as [H|[H _]]; [left; exact H|].
                right. split; [exact H|]. left. discriminate. }
              split; [|simpl; now rewrite Hlen].
              rewrite Hout. cbn [received].
              rewrite Hreply, Hstatus, app_assoc. reflexivity.
Qed.

Lemma paginated_loop_aborts (srv : server R) (fuel : nat) :
  forall sent endpoint params all_results total offset trace0,
  exists new,
    snd (fst (paginated_loop fuel srv sent endpoint params all_results
                total offset trace0)) = (trace0 ++ new)%list
    /\ forall j rq,
         nth_error new j = Some rq ->
         http_error (srv (sent + j) rq)
         \/ srv (sent + j) rq = ConnectionError ->
         fst (fst (paginated_loop fuel srv sent endpoint params all_results
                     total offset trace0)) = Return []
         /\ S j = List.length new.
Proof.
  induction fuel as [|fuel IH];
    intros sent endpoint params all_results total offset trace0.
  - exists []. split.
    + simpl. destruct (len all_results <? total)%Z; simpl;
        now rewrite app_nil_r.
    + intros [|j] rq H; discriminate.
  - cbn [paginated_loop].
    destruct (len all_results <? total)%Z.
    2:{ exists []. split; [simpl; now rewrite app_nil_r|].
        intros [|j] rq H; discriminate. }
    set (rq0 := paginated_request endpoint).
    destruct (srv sent rq0) as [|status_code data] eqn:Hreply.
    + exists [rq0]. split; [reflexivity|].
      intros j rq Hj _.
      apply nth_error_single_inv in Hj; destruct Hj as [-> ->].
      split; reflexivity.
    + destruct (is_error_status status_code) eqn:Hstatus.
      * exists [rq0]. split; [reflexivity|].
        intros j rq Hj _.
        apply nth_error_single_inv in Hj; destruct Hj as [-> ->].
        split; reflexivity.
      * match goal with
        | |- context [paginated_loop fuel srv (S sent) endpoint ?p ?a ?t
                        ?o ?tr] =>
            destruct (IH (S sent) endpoint p a t o tr)
              as (new & Htrace & Hnew)
        end.
        exists (rq0 :: new). split.
        { rewrite Htrace, <- app_assoc. reflexivity. }
        intros [|j] rq Hj Hfail.
        -- simpl in Hj. inversion Hj; subst rq.
           rewrite Nat.add_0_r, Hreply in Hfail. simpl in Hfail.
           destruct Hfail as [H|H]; congruence.
        -- simpl in Hj. rewrite Nat.add_succ_r in Hfail.
           destruct (Hnew j rq Hj Hfail) as [Hout Hlen].
           split; [exact Hout | simpl; now rewrite Hlen].
Qed.

(** C4, as the code has it. Take the request a fetch made after [i]
    earlier ones. In [get_all_collibra_assets_basic_auth], when it got a
    4xx or 5xx response, or raised a transport error after an earlier
    response had been received, it is the last request made and the
    function returns the records received so far. In [get_paginated_data],
    when it got a 4xx or 5xx response or raised a transport error, it is
    the last request made and the function returns the empty list, whatever
    had been received. *)
Theorem fetch_aborts_on_failed_request
  (fuel : nat) (srv : server R) (endpoint : string) (filters : dict) :
  (forall (i : nat) (rq : request),
     nth_error (snd (get_all_collibra_assets_basic_auth COLLIBRA_URL fuel
                       srv)) i = Some rq ->
     http_error (srv i rq) \/ (srv i rq = ConnectionError /\ 0 < i) ->
     fst (get_all_collibra_assets_basic_auth COLLIBRA_URL fuel srv)
     = Return (received srv 0
                 (snd (get_all_collibra_assets_basic_auth COLLIBRA_URL fuel
                         srv)))
     /\ S i = List.length (snd (get_all_collibra_assets_basic_auth
                                  COLLIBRA_URL fuel srv)))
  /\ (forall (i : nat) (rq : request),
        nth_error (snd (fst (get_paginated_data fuel srv endpoint filters)))
          i = Some rq ->
        http_error (srv i rq) \/ srv i rq = ConnectionError ->
        fst (fst (get_paginated_data fuel srv endpoint filters)) = Return []
        /\ S i = List.length (snd (fst (get_paginated_data fuel srv endpoint
                                          filters)))).
Proof.
  split; intros i rq.
  - unfold get_all_collibra_assets_basic_auth.
    destruct (assets_loop_aborts srv fuel 0 0%Z [] None [])
      as (new & Htrace & Hnew).
    rewrite Htrace. cbn [app]. intros Hi Hfail.
    apply (Hnew i rq Hi). cbn [Nat.add].
    destruct Hfail as [H|[H H']]; [left; exact H|].
    right. split; [exact H | right; exact H'].
  - unfold get_paginated_data.
    destruct (paginated_loop_aborts srv fuel 0 endpoint filters [] 1%Z 0%Z
                [])
      as (new & Htrace & Hnew).
    rewrite Htrace. cbn [app]. intros Hi Hfail.
    apply (Hnew i rq Hi). cbn [Nat.add]. exact Hfail.
Qed.

(** *** A complete fetch *)

Lemma firstn_plus {A} (n m : nat) (l : list A) :
  firstn (n + m) l = (firstn n l ++ firstn m (skipn n l))%list.
Proof.
  revert l. induction n as [|n IH]; intros l; [reflexivity|].
  destruct l as [|x l]; simpl.
  - now rewrite firstn_nil.
  - now rewrite IH.
Qed.

Lemma paging_server_assets (db : list R) (default_limit sent o : nat) :
  paging_server db default_limit sent
    (assets_request COLLIBRA_URL (Z.of_nat o) assets_limit)
  = Response 200
      {| data_results := Some (firstn 100 (skipn o db));
         data_total := Some (len db) |}.
Proof.
  unfold paging_server, assets_request, query_nat. cbn [query get].
  cbn [String.eqb Ascii.eqb Bool.eqb].
  now rewrite Nat2Z.id.
Qed.

Lemma pages_bounds (t : nat) :
  t <= 100 * ((t + 99) / 100) /\ 100 * ((t + 99) / 100) < t + 100.
Proof.
  pose proof (Nat.div_mod_eq (t + 99) 100).
  pose proof (Nat.mod_upper_bound (t + 99) 100). lia.
Qed.

Lemma assets_loop_paging (db : list R) (default_limit : nat) (fuel : nat) :
  forall i response trace0,
    100 * i < List.length db ->
    (List.length db + 99) / 100 <= fuel + i ->
    assets_loop COLLIBRA_URL fuel (paging_server db default_limit) i
      (Z.of_nat (100 * i)) (firstn (100 * i) db) response trace0
    = (Return db,
       (trace0
        ++ map (fun j => assets_request COLLIBRA_URL (Z.of_nat (100 * j))
                           assets_limit)
               (seq i ((List.length db + 99) / 100 - i)))%list).
Proof.
  pose proof (pages_bounds (List.length db)) as [Hlow Hhigh].
  induction fuel as [|fuel IH]; intros i response trace0 Hi Hfuel.
  - lia.
  - cbn [assets_loop]. rewrite paging_server_assets.
    cbn [is_error_status Z.leb Z.ltb Z.compare Pos.compare Pos.compare_cont
         andb data_results data_total or_empty or_zero].
    rewrite <- firstn_plus.
    unfold len at 1 2. rewrite length_firstn.
    destruct (le_lt_dec (List.length db) (100 * i + 100)) as [Hlast|Hmore].
    + (* the page completes the data *)
      replace (Z.of_nat (Nat.min (100 * i + 100) (List.length db))
               >=? Z.of_nat (List.length db))%Z with true
        by (symmetry; apply Z.geb_le; lia).
      rewrite firstn_all2 by exact Hlast.
      replace ((List.length db + 99) / 100 - i) with 1 by lia.
      reflexivity.
    + replace (Z.of_nat (Nat.min (100 * i + 100) (List.length db))
               >=? Z.of_nat (List.length db))%Z with false
        by (symmetry; rewrite Z.geb_leb; apply Z.leb_gt; lia).
      unfold len. rewrite length_firstn, length_skipn.
      replace (Z.of_nat (100 * i)
               + Z.of_nat (Nat.min 100 (List.length db - 100 * i)))%Z
        with (Z.of_nat (100 * S i)) by lia.
      replace (100 * i + 100) with (100 * S i) by lia.
      rewrite IH by lia.
      replace ((List.length db + 99) / 100 - i)
        with (S ((List.length db + 99) / 100 - S i)) by lia.
      cbn [seq map]. rewrite <- app_assoc. reflexivity.
Qed.

(** What C3 says, on [get_all_collibra_assets_basic_auth]: against a
    catalog that paginates a non-empty [db], the function makes
    [ceil(total/100)] requests, at the offsets [0, 100, 200, ...], and
    returns [db]. *)
Lemma assets_fetch_complete (db : list R) (default_limit fuel : nat) :
  0 < List.length db ->
  (List.length db + 99) / 100 <= fuel ->
  get_all_collibra_assets_basic_auth COLLIBRA_URL fuel
    (paging_server db default_limit)
  = (Return db,
     map (fun j => assets_request COLLIBRA_URL (Z.of_nat (100 * j))
                     assets_limit)
         (seq 0 ((List.length db + 99) / 100))).
Proof.
  intros Hdb Hfuel. unfold get_all_collibra_assets_basic_auth.
  pose proof (assets_loop_paging db default_limit fuel 0 None []) as H.
  replace (100 * 0) with 0 in H by lia.
  cbn [firstn Z.of_nat app] in H.
  rewrite H by lia. now rewrite Nat.sub_0_r.
Qed.

(** *** The fetch of [get_paginated_data] *)


Lemma paginated_loop_same_page (answer : request -> reply R)
  (fuel : nat) :
  forall sent endpoint params all_results total offset trace0 out trace
    params',
    paginated_loop fuel (fun _ => answer) sent endpoint params all_results
      total offset trace0 = (Return out, trace, params') ->
    out = [] \/
    exists k,
      out = (all_results
             ++ concat (repeat (only_page answer endpoint) k))%list
      /\ List.length trace = List.length trace0 + k.
Proof.
  induction fuel as [|fuel IH];
    intros sent endpoint params all_results total offset trace0 out trace
      params'; cbn [paginated_loop].
  - destruct (len all_results <? total)%Z; intros H; inversion H.
    right. exists 0. simpl. now rewrite app_nil_r, Nat.add_0_r.
  - destruct (len all_results <? total)%Z.
    2:{ intros H; inversion H. right. exists 0. simpl.
        now rewrite app_nil_r, Nat.add_0_r. }
    unfold only_page.
    destruct (answer (paginated_request endpoint))
      as [|status_code data] eqn:Hreply.
    + intros H; inversion H. now left.
    + destruct (is_error_status status_code) eqn:Hstatus.
      * intros H; inversion H. now left.
      * intros H. apply IH in H. destruct H as [H|(k & Hout & Hlen)].
        -- now left.
        -- right. exists (S k). unfold only_page in Hout.
           rewrite Hreply, Hstatus in Hout.
           split.
           ++ rewrite Hout. cbn [repeat concat].
              now rewrite <- app_assoc.
           ++ rewrite Hlen, length_app. simpl. lia.
Qed.

Lemma concat_repeat_nil {A} (k : nat) : concat (repeat (@nil A) k) = [].
Proof. induction k; simpl; auto. Qed.

Lemma NoDup_twice_nil {A} (p r : list A) :
  NoDup (p ++ p ++ r) -> p = [].
Proof.
  destruct p as [|x p]; [reflexivity|].
  simpl. intros H. inversion H as [|? ? Hnotin _]; subst.
  exfalso. apply Hnotin. apply in_or_app. right. now left.
Qed.

(** C3, where the code departs from it. [get_paginated_data] sends the
    same request at every turn, so a catalog that answers by the request
    alone sends the same page at every turn. When the data [db] has more
    than 1000 records, all different, no run returns [db] after the
    [ceil(total/1000)] requests the claim counts. *)
Theorem paginated_fetch_never_completes
  (fuel : nat) (answer : request -> reply R) (endpoint : string)
  (filters : dict) (db : list R) :
  NoDup db -> 1000 < List.length db ->
  ~ (fst (fst (get_paginated_data fuel (fun _ => answer) endpoint filters))
     = Return db
     /\ List.length
          (snd (fst (get_paginated_data fuel (fun _ => answer) endpoint
                       filters)))
        = (List.length db + 999) / 1000).
Proof.
  intros Hnodup Hlen [Hout Hcount].
  unfold get_paginated_data in *.
  destruct (paginated_loop fuel (fun _ => answer) 0 endpoint filters [] 1%Z
              0%Z []) as [[out trace] params'] eqn:Hrun.
  cbn [fst snd] in *. subst out.
  apply paginated_loop_same_page in Hrun.
  destruct Hrun as [Hnil|(k & Hdb & Hk)].
  - subst db. simpl in Hlen. lia.
  - cbn [List.length app Nat.add] in *.
    assert (2 <= k) as Hk2.
    { rewrite <- Hk, Hcount.
      apply Nat.div_le_lower_bound; lia. }
    destruct k as [|[|k]]; try lia.
    cbn [repeat concat] in Hdb.
    assert (only_page answer endpoint = []) as Hpage.
    { apply (NoDup_twice_nil _
               (concat (repeat (only_page answer endpoint) k))).
      rewrite <- Hdb. exact Hnodup. }
    rewrite Hpage in Hdb. cbn [app] in Hdb.
    rewrite concat_repeat_nil in Hdb.
    subst db. simpl in Hlen. lia.
Qed.

End Fetching.

(** A run of [get_paginated_data] with the filter of
    [get_asset_relations]: the dictionary gains [offset] and [limit], the
    request carries nothing. *)
Example paginated_request_run :
  Collibra.get_paginated_data 5
    (Collibra.paging_server [1; 2; 3] 1000)
    "https://catalog/rest/2.0/relations" [("sourceId", VStr "A1")]
  = (Return [1; 2; 3],
     [ {| Collibra.url := "https://catalog/rest/2.0/relations";
          Collibra.params := None; Collibra.query := [] |} ],
     [("sourceId", VStr "A1"); ("offset", VInt 0); ("limit", VInt 1000)]).
Proof. reflexivity. Qed.


Lemma fetch_aborts_on_failed_request_witness :
  fst (Collibra.get_all_collibra_assets_basic_auth "https://catalog" 9
         two_pages_then_503) = Return [1; 2; 3; 4]
  /\ fst (fst (Collibra.get_paginated_data 9 two_pages_then_503
                 "https://catalog/rest/2.0/relations" [])) = Return [].
Proof.
  destruct (fetch_aborts_on_failed_request "https://catalog" 9
              two_pages_then_503 "https://catalog/rest/2.0/relations" [])
    as [Hassets Hpaginated].
  split.
  - destruct (Hassets 2 (Collibra.assets_request "https://catalog" 4 100))
      as [Hout _]; [reflexivity | left; reflexivity |].
    rewrite Hout. reflexivity.
  - destruct (Hpaginated 2
                (Collibra.paginated_request
                   "https://catalog/rest/2.0/relations"))
      as [Hout _]; [reflexivity | left; reflexivity |].
    exact Hout.
Defined.

(** C4 as stated fails in [get_paginated_data]: the two pages received
    before the failed request are dropped, the function returns the empty
    list. *)
Lemma paginated_fetch_discards_received_pages :
  Collibra.received two_pages_then_503 0
    (snd (fst (Collibra.get_paginated_data 9 two_pages_then_503
                 "https://catalog/rest/2.0/relations" [])))
  = [1; 2; 3; 4]
  /\ fst (fst (Collibra.get_paginated_data 9 two_pages_then_503
                 "https://catalog/rest/2.0/relations" [])) = Return []
  /\ Return (A := list nat) [] <> Return [1; 2; 3; 4].
Proof. repeat split. discriminate. Qed.

(** A transport error on the very first request of
    [get_all_collibra_assets_basic_auth]: the handler reads [response],
    which is not bound yet. *)
Example assets_first_request_fails :
  Collibra.get_all_collibra_assets_basic_auth "https://catalog" 9
    (Collibra.scripted (R := nat) [])
  = (Raise UnboundLocalError,
     [Collibra.assets_request "https://catalog" 0 100]).
Proof. reflexivity. Qed.

(** The claim of C3 refuted on a catalog of 1500 records that paginates
    by 1000 when the request names no limit. *)
Lemma paginated_fetch_never_completes_witness :
  ~ (fst (fst (Collibra.get_paginated_data 9
                 (fun _ => Collibra.paging_server (seq 0 1500) 1000 0)
                 "https://catalog/rest/2.0/relations"
                 [("sourceId", VStr "A1")]))
     = Return (seq 0 1500)
     /\ List.length
          (snd (fst (Collibra.get_paginated_data 9
                       (fun _ => Collibra.paging_server (seq 0 1500) 1000 0)
                       "https://catalog/rest/2.0/relations"
                       [("sourceId", VStr "A1")])))
        = (List.length (seq 0 1500) + 999) / 1000).
Proof.
  apply (paginated_fetch_never_completes 9
           (Collibra.paging_server (seq 0 1500) 1000 0)
           "https://catalog/rest/2.0/relations" [("sourceId", VStr "A1")]
           (seq 0 1500)).
  - apply seq_NoDup.
  - rewrite length_seq. lia.
Defined.

(** The same run, evaluated: two requests, the first thousand records
    twice, the last five hundred never. *)
Example paginated_fetch_run :
  Collibra.get_paginated_data 9
    (fun _ => Collibra.paging_server (seq 0 1500) 1000 0)
    "https://catalog/rest/2.0/relations" [("sourceId", VStr "A1")]
  = (Return (seq 0 1000 ++ seq 0 1000)%list,
     [ Collibra.paginated_request "https://catalog/rest/2.0/relations";
       Collibra.paginated_request "https://catalog/rest/2.0/relations" ],
     [("sourceId", VStr "A1"); ("offset", VInt 1000);
      ("limit", VInt 1000)]).
Proof. vm_compute. reflexivity. Qed.

(** The sibling fetcher on the same catalog: fifteen requests, the whole
    data. *)
Example assets_fetch_run :
  fst (Collibra.get_all_collibra_assets_basic_auth "https://catalog" 15
         (Collibra.paging_server (seq 0 1500) 1000))
  = Return (seq 0 1500).
Proof.
  rewrite assets_fetch_complete; [reflexivity | | ];
    rewrite length_seq; [lia | vm_compute; lia].
Qed.

(** ** Escaping in the built statements *)

(** C2, where the code departs from it. [_format_properties] embeds a
    property key as it is, [create_vertex] and [create_edge] embed the
    label and the vertex ids as they are: a quote in one of them reaches
    the statement with no backslash before it. The loops of
    [upsert_vertex] embed a boolean through [str], as [True] or [False].
    The sibling paths do what the claim says: [upsert_vertex] escapes keys,
    label and id, [_format_properties] lower-cases booleans. *)
Theorem builder_leaves_quotes_and_booleans_raw :
  create_vertex_query "Asset" (Some [("owner's", VStr "it's")])
  = "g.addV('Asset').property('owner's', 'it\'s')"
  /\ quotes_escaped "owner's" = false
  /\ create_edge_query "A'1" "A2" "relatedTo"
       (Some [("relationTypeId", VStr "R1")])
     = "g.V('A'1').addE('relatedTo').to(g.V('A2')).property('relationTypeId', 'R1')"
  /\ quotes_escaped "A'1" = false
  /\ update_query "resourceType" "D1" "Domain" "id"
       (filtered_properties "id" "D1"
          [("id", VStr "D1"); ("system", VBool true)])
     = "g.V('D1').has('resourceType', 'Domain').property('system', True)"
  /\ insert_query "resourceType" "Domain" "D1"
       (filtered_properties "id" "D1"
          [("id", VStr "D1"); ("system", VBool false)])
     = "g.addV('Domain').property('id', 'D1').property('resourceType', 'Domain').property('system', False)"
  /\ _format_properties (Some [("system", VBool true)])
     = ".property('system', true)".
Proof. repeat split. Qed.

(** The parts of C2 the code keeps. A string value is embedded between
    quotes with each of its quotes behind a backslash, by
    [_format_properties] and by the loops of [upsert_vertex];
    [_format_properties] embeds a boolean as [true] or [false], a number or
    [None] through [str]. *)
Lemma property_values_embedded (key : string) :
  (forall s,
     format_property_step key (VStr s)
     = ".property('" ++ key ++ "', '" ++ _escape_gremlin_string s ++ "')"
     /\ upsert_property_step key (VStr s)
        = ".property('" ++ _escape_gremlin_string key ++ "', '"
          ++ _escape_gremlin_string s ++ "')"
     /\ quotes_escaped (_escape_gremlin_string s) = true)
  /\ format_property_step key (VBool true)
     = ".property('" ++ key ++ "', true)"
  /\ format_property_step key (VBool false)
     = ".property('" ++ key ++ "', false)"
  /\ (forall z, format_property_step key (VInt z)
                = ".property('" ++ key ++ "', " ++ str (VInt z) ++ ")")
  /\ format_property_step key VNone = ".property('" ++ key ++ "', None)".
Proof.
  repeat split. apply escape_quotes_escaped.
Qed.

(** ** The upsert and the uniqueness invariant *)

Section Dictionaries.

Lemma get_set_same (d : dict) (key : string) (x : value) :
  get (set d key x) key = Some x.
Proof.
  induction d as [|[k y] d IH]; simpl.
  - now rewrite String.eqb_refl.
  - destruct (String.eqb k key) eqn:E; simpl; rewrite E; auto.
Qed.

Lemma get_set_other (d : dict) (key key' : string) (x : value) :
  key' <> key -> get (set d key' x) key = get d key.
Proof.
  intros Hne. induction d as [|[k y] d IH]; simpl.
  - apply String.eqb_neq in Hne. now rewrite Hne.
  - destruct (String.eqb k key') eqn:E; simpl.
    + apply String.eqb_eq in E. subst k.
      apply String.eqb_neq in Hne. now rewrite Hne.
    + destruct (String.eqb k key); auto.
Qed.

(** Assignments to other keys leave a key as it was. *)
Lemma get_assign_all_other (assigns d : dict) (key : string) :
  (forall kv, In kv assigns -> fst kv <> key) ->
  get (assign_all assigns d) key = get d key.
Proof.
  revert d. unfold assign_all.
  induction assigns as [|[k x] assigns IH]; intros d Hkeys; simpl.
  - reflexivity.
  - rewrite IH.
    + apply get_set_other. apply (Hkeys (k, x)). now left.
    + intros kv Hin. apply Hkeys. now right.
Qed.

(** When every assignment to a key gives it the same value, and the key
    has that value already or is assigned at least once, it ends with that
    value. *)
Lemma get_assign_all_agree (assigns d : dict) (key : string) (x : value) :
  (forall kv, In kv assigns -> fst kv = key -> snd kv = x) ->
  get d key = Some x \/ (exists kv, In kv assigns /\ fst kv = key) ->
  get (assign_all assigns d) key = Some x.
Proof.
  revert d. unfold assign_all.
  induction assigns as [|[k y] assigns IH]; intros d Hval Hsome; simpl.
  - destruct Hsome as [H|(kv & [] & _)]. exact H.
  - apply IH.
    + intros kv Hin. apply Hval. now right.
    + destruct (String.eqb k key) eqn:E.
      * apply String.eqb_eq in E. subst k. left.
        assert (y = x) as -> by (apply (Hval (key, y)); [now left | easy]).
        apply get_set_same.
      * apply String.eqb_neq in E.
        rewrite get_set_other by exact E.
        destruct Hsome as [H|(kv & [Heq|Hin] & Hk)].
        -- now left.
        -- subst kv. simpl in Hk. congruence.
        -- right. now exists kv.
Qed.

Lemma contains_In (d : dict) (key : string) :
  contains d key = true -> exists kv, In kv d /\ fst kv = key.
Proof.
  unfold contains. induction d as [|[k y] d IH]; simpl; [discriminate|].
  destruct (String.eqb k key) eqn:E.
  - intros _. exists (k, y). split; [now left|].
    now apply String.eqb_eq in E.
  - intros H. destruct (IH H) as (kv & Hin & Hk).
    exists kv. split; [now right | exact Hk].
Qed.

End Dictionaries.

Section UpsertRun.

Lemma bind_return {A B} (m : M A) (k : A -> M B) (w w' : world) (a : A) :
  m w = (Return a, w') -> bind m k w = k a w'.
Proof. intros H. unfold bind. now rewrite H. Qed.

Variable self : CosmosGraphClient.


Lemma find_vertex_connected (label uname uvalue : string) (w : world) :
  gremlin_client self = Some Handle -> faults w = [] ->
  _find_vertex self label uname uvalue w
  = (Return
       (first_result
          (Some (map AVertex
                   (firstn 1
                      (filter (find_matches (partition_key_field self) label
                                 uname uvalue)
                              (vertices (store w))))))),
     looked_up self label uname uvalue w).
Proof.
  intros Hc Hf. unfold _find_vertex, bind.
  rewrite execute_gremlin_query_connected by assumption.
  reflexivity.
Qed.

(** [upsert_vertex] on well-formed arguments, on a connected client whose
    submissions go through: what it returns and what it leaves in the
    store, by what the lookup finds. *)
Lemma upsert_run (label id_value uname uvalue : string)
  (properties : dict) (w : world) :
  gremlin_client self = Some Handle -> faults w = [] ->
  label <> "" -> id_value <> "" -> uname <> "" ->
  let pk := partition_key_field self in
  let vs := vertices (store w) in
  let filtered := filtered_properties uname uvalue properties in
  let created :=
    inserted pk label id_value
      (filter (fun kv => negb (create_skips pk (fst kv))) filtered) in
  let assigned :=
    filter (fun kv => negb (update_skips pk uname (fst kv))) filtered in
  exists r w',
    upsert_vertex self (Some label) (Some id_value) (Some uname)
      (Some uvalue) properties w = (Return r, w')
    /\ faults w' = []
    /\ match filter (find_matches pk label uname uvalue) vs with
       | [] =>
           (r = None /\ vertices (store w') = vs)
           \/ (r = Some (AVertex created)
               /\ vertices (store w') = (vs ++ [created])%list)
       | v :: _ =>
           if String.eqb (v_id v) ""
           then r = None /\ vertices (store w') = vs
           else
             r = first_result
                   (Some (map (fun x => AVertex
                                 (updated pk (v_id v) label assigned x))
                            (filter (update_selects pk (v_id v) label) vs)))
             /\ vertices (store w')
                = map (updated pk (v_id v) label assigned) vs
             /\ wire w'
                = (wire w
                   ++ [find_query pk label uname uvalue;
                       update_query pk (v_id v) label uname filtered])%list
       end.
Proof.
  intros Hc Hf Hl Hi Hu pk vs filtered created assigned.
  unfold upsert_vertex.
  rewrite (truthy_nonempty label Hl), (truthy_nonempty id_value Hi),
    (truthy_nonempty uname Hu).
  cbn [negb orb is_None unwrap].
  rewrite (bind_return _ _ _ _ _ (find_vertex_connected label uname uvalue
                                    w Hc Hf)).
  fold pk. fold vs. fold filtered.
  destruct (filter (find_matches pk label uname uvalue) vs) as [|v rest];
    cbn [firstn map first_result found].
  - (* no vertex found: the creation *)
    unfold bind. rewrite execute_gremlin_query_connected
      by (try exact Hc; reflexivity).
    cbn [q_sem exec looked_up store]. fold created.
    destruct (accepts (store w) (vertices (store w)) created).
    + eexists; eexists. split; [reflexivity|]. split; [reflexivity|].
      right. split; reflexivity.
    + eexists; eexists. split; [reflexivity|]. split; [reflexivity|].
      left. split; reflexivity.
  - (* a vertex found *)
    cbn [get_id].
    rewrite (bind_return _ _ _ _ (Some (v_id v)) eq_refl).
    destruct (v_id v) as [|c vid] eqn:Hvid.
    + cbn [truthy negb String.eqb].
      eexists; eexists. split; [reflexivity|]. split; [reflexivity|].
      split; reflexivity.
    + cbn [truthy negb unwrap String.eqb].
      unfold bind. rewrite execute_gremlin_query_connected
        by (try exact Hc; reflexivity).
      cbn [q_sem exec looked_up store]. fold assigned.
      eexists; eexists. split; [reflexivity|]. split; [reflexivity|].
      split; [reflexivity|]. split; [reflexivity|].
      cbn [wire q_text looked_up]. rewrite <- app_assoc. reflexivity.
Qed.

End UpsertRun.

Section UpsertInvariant.

Variable self : CosmosGraphClient.
Variable uname : string.

Hypothesis pk_not_id : partition_key_field self <> "id".
Hypothesis pk_not_label : partition_key_field self <> "label".
Hypothesis uname_not_pk : uname <> partition_key_field self.
Hypothesis uname_not_label : uname <> "label".

Lemma filter_map_comm {A} (f : A -> bool) (g : A -> A) (l : list A) :
  filter f (map g l) = map g (filter (fun x => f (g x)) l).
Proof.
  induction l as [|x l IH]; simpl; [reflexivity|].
  destruct (f (g x)); simpl; now rewrite IH.
Qed.

(** An update leaves a key it does not assign as it was. *)
Lemma updated_prop vertex_id label (assigns : dict) (v : vertex) key :
  (forall kv, In kv assigns -> fst kv <> key) ->
  prop (updated (partition_key_field self) vertex_id label assigns v) key
  = prop v key.
Proof.
  intros Hkeys. unfold updated.
  destruct (update_selects _ vertex_id label v); [|reflexivity].
  unfold prop; simpl.
  destruct (String.eqb key "id"); [reflexivity|].
  destruct (String.eqb key "label"); [reflexivity|].
  now apply get_assign_all_other.
Qed.

Lemma updated_label vertex_id label assigns v :
  v_label (updated (partition_key_field self) vertex_id label assigns v)
  = v_label v.
Proof. unfold updated. now destruct (update_selects _ _ _ _). Qed.

Lemma updated_id vertex_id label assigns v :
  v_id (updated (partition_key_field self) vertex_id label assigns v)
  = v_id v.
Proof. unfold updated. now destruct (update_selects _ _ _ _). Qed.

(** The clauses of the update statement assign neither the unique
    property, nor the partition key, nor [id]. *)
Lemma assigned_keys (filtered : dict) kv :
  In kv (filter (fun kv => negb (update_skips (partition_key_field self)
                                   uname (fst kv))) filtered) ->
  fst kv <> uname /\ fst kv <> partition_key_field self /\ fst kv <> "id".
Proof.
  intros Hin. apply filter_In in Hin. destruct Hin as [_ Hk].
  unfold update_skips in Hk.
  apply negb_true_iff in Hk.
  apply orb_false_iff in Hk. destruct Hk as [Hk H3].
  apply orb_false_iff in Hk. destruct Hk as [H1 H2].
  apply String.eqb_neq in H1, H2, H3. auto.
Qed.

Section Update.

Variables (vertex_id label : string) (filtered : dict).

Let assigned :=
  filter (fun kv => negb (update_skips (partition_key_field self) uname
                            (fst kv))) filtered.
Let upd := updated (partition_key_field self) vertex_id label assigned.

Lemma upd_has_uname v uvalue : has uname uvalue (upd v) = has uname uvalue v.
Proof.
  unfold has, upd. rewrite updated_prop; [reflexivity|].
  intros kv Hin. now apply assigned_keys in Hin.
Qed.

Lemma upd_has_pk v x :
  has (partition_key_field self) x (upd v)
  = has (partition_key_field self) x v.
Proof.
  unfold has, upd. rewrite updated_prop; [reflexivity|].
  intros kv Hin. now apply assigned_keys in Hin.
Qed.

Lemma upd_matches l uvalue v :
  matches l uname uvalue (upd v) = matches l uname uvalue v.
Proof.
  unfold matches. rewrite upd_has_uname. unfold upd.
  now rewrite updated_label.
Qed.

Lemma upd_find_matches l uvalue v :
  find_matches (partition_key_field self) l uname uvalue (upd v)
  = find_matches (partition_key_field self) l uname uvalue v.
Proof.
  unfold find_matches. rewrite upd_has_uname, upd_has_pk. unfold upd.
  now rewrite updated_label.
Qed.

Lemma upd_count l uvalue vs :
  count_matching l uname uvalue (map upd vs)
  = count_matching l uname uvalue vs.
Proof.
  unfold count_matching. rewrite filter_map_comm, length_map.
  f_equal. apply filter_ext. intros v. apply upd_matches.
Qed.

Lemma upd_unique vs : unique_on uname vs -> unique_on uname (map upd vs).
Proof. intros H l uvalue. rewrite upd_count. apply H. Qed.

Lemma upd_partitioned vs :
  partitioned (partition_key_field self) vs ->
  partitioned (partition_key_field self) (map upd vs).
Proof.
  unfold partitioned. rewrite Forall_map. apply Forall_impl.
  intros v H. rewrite upd_has_pk. unfold upd.
  now rewrite updated_label.
Qed.

End Update.

Section Creation.

Variables (label id_value uvalue : string) (properties : dict).

Hypothesis names_one_value :
  agrees uname {| c_label := Some label; c_id_value := Some id_value;
                  c_unique_value := Some uvalue;
                  c_properties := properties |}.

Let created :=
  inserted (partition_key_field self) label id_value
    (filter (fun kv => negb (create_skips (partition_key_field self)
                              (fst kv)))
            (filtered_properties uname uvalue properties)).

Lemma created_keys kv :
  In kv (filter (fun kv => negb (create_skips (partition_key_field self)
                                   (fst kv)))
                (filtered_properties uname uvalue properties)) ->
  fst kv <> partition_key_field self /\ fst kv <> "id"
  /\ In kv (filtered_properties uname uvalue properties).
Proof.
  intros Hin. apply filter_In in Hin. destruct Hin as [Hin Hk].
  unfold create_skips in Hk.
  apply negb_true_iff, orb_false_iff in Hk. destruct Hk as [H1 H2].
  apply String.eqb_neq in H1, H2. auto.
Qed.

Lemma created_has_pk :
  has (partition_key_field self) label created = true.
Proof.
  unfold has, prop, created, inserted. cbn [v_props].
  rewrite (proj2 (String.eqb_neq _ _) pk_not_id),
    (proj2 (String.eqb_neq _ _) pk_not_label).
  rewrite get_assign_all_other.
  - cbn [get]. rewrite String.eqb_refl. cbn [value_eqb].
    apply String.eqb_refl.
  - intros kv Hin. now apply created_keys in Hin.
Qed.

(** The vertex created has [unique_property_value] under the unique
    property. *)
Lemma created_prop_uname : prop created uname = Some (VStr uvalue).
Proof.
  unfold prop, created, inserted. cbn [v_id v_label v_props].
  unfold agrees in names_one_value. cbn in names_one_value.
  destruct (String.eqb uname "id") eqn:Eid.
  - congruence.
  - rewrite (proj2 (String.eqb_neq _ _) uname_not_label).
    apply get_assign_all_agree.
    + intros kv Hin Hk. apply created_keys in Hin.
      destruct Hin as (_ & _ & Hin).
      apply filtered_properties_In in Hin.
      destruct Hin as [(Hin & _)|[-> _]]; [|reflexivity].
      rewrite Forall_forall in names_one_value.
      now apply names_one_value.
    + right.
      destruct (contains_In _ _ (filtered_properties_contains uname uvalue
                                   properties)) as (kv & Hin & Hk).
      exists kv. split; [|exact Hk].
      apply filter_In. split; [exact Hin|].
      unfold create_skips. rewrite Hk.
      apply negb_true_iff, orb_false_iff.
      split; apply String.eqb_neq; [exact uname_not_pk|].
      now apply String.eqb_neq.
Qed.

Lemma created_has_uname x : has uname x created = String.eqb uvalue x.
Proof. unfold has. now rewrite created_prop_uname. Qed.

Lemma created_find_matches :
  find_matches (partition_key_field self) label uname uvalue created = true.
Proof.
  unfold find_matches.
  rewrite created_has_pk, created_has_uname, String.eqb_refl.
  unfold created, inserted. cbn [v_label]. now rewrite String.eqb_refl.
Qed.

Lemma created_matches l x :
  matches l uname x created = String.eqb label l && String.eqb uvalue x.
Proof.
  unfold matches. rewrite created_has_uname. reflexivity.
Qed.

End Creation.

(** Among vertices that carry their label under the partition key, the
    lookup selects the vertices of the label that have the value. *)
Lemma find_matches_partitioned label uvalue vs :
  partitioned (partition_key_field self) vs ->
  filter (find_matches (partition_key_field self) label uname uvalue) vs
  = filter (matches label uname uvalue) vs.
Proof.
  intros Hp. apply filter_ext_in. intros v Hin.
  unfold partitioned in Hp. rewrite Forall_forall in Hp.
  specialize (Hp v Hin).
  unfold find_matches, matches.
  destruct (String.eqb (v_label v) label) eqn:E; [|reflexivity].
  apply String.eqb_eq in E. subst label. now rewrite Hp.
Qed.

Lemma truthy_inv (s : option string) :
  truthy s = true -> exists x, s = Some x /\ x <> "".
Proof.
  destruct s as [[|c x]|]; try discriminate.
  intros _. exists (String c x). split; [reflexivity | discriminate].
Qed.

(** Without a client, [upsert_vertex] returns [None] and the store is as
    before. *)
Lemma upsert_without_client label id_value uname' uvalue properties w :
  gremlin_client self = None ->
  exists w',
    upsert_vertex self label id_value uname' uvalue properties w
    = (Return None, w')
    /\ store w' = store w /\ faults w' = faults w /\ wire w' = wire w.
Proof.
  intros Hc. unfold upsert_vertex.
  destruct (negb (truthy label) || negb (truthy id_value)
            || negb (truthy uname') || is_None uvalue).
  - eexists. split; [reflexivity|]. repeat split.
  - unfold _find_vertex, _execute_gremlin_query, submit. rewrite Hc.
    run. eexists. split; [reflexivity|]. repeat split.
Qed.


Lemma upsert_step (c : upsert_call) (w : world) :
  agrees uname c -> kept self uname w ->
  exists r w', upsert self uname c w = (Return r, w') /\ kept self uname w'.
Proof.
  intros Hagree (Hf & Hp & Hu).
  destruct c as [l i uv properties]. unfold upsert.
  cbn [c_label c_id_value c_unique_value c_properties].
  destruct (negb (truthy l) || negb (truthy i)
            || negb (truthy (Some uname)) || is_None uv) eqn:Hvalid.
  { unfold upsert_vertex. rewrite Hvalid.
    eexists; eexists. split; [reflexivity|]. now repeat split. }
  apply orb_false_iff in Hvalid. destruct Hvalid as [Hvalid Huv].
  apply orb_false_iff in Hvalid. destruct Hvalid as [Hvalid Hun].
  apply orb_false_iff in Hvalid. destruct Hvalid as [Hl Hi].
  apply negb_false_iff, truthy_inv in Hl, Hi, Hun.
  destruct Hl as (label & -> & Hl). destruct Hi as (id_value & -> & Hi).
  destruct Hun as (u & Hu' & Hun). injection Hu' as <-.
  destruct uv as [uvalue|]; [clear Huv | discriminate].
  destruct (gremlin_client self) as [[]|] eqn:Hc.
  2:{ destruct (upsert_without_client (Some label) (Some id_value)
                  (Some uname) (Some uvalue) properties w Hc)
        as (w' & Hrun & Hs & Hf' & _).
      exists None, w'. split; [exact Hrun|].
      unfold kept. rewrite Hs, Hf'. now repeat split. }
  destruct (upsert_run self label id_value uname uvalue properties w Hc Hf
              Hl Hi Hun) as (r & w' & Hrun & Hf' & Hcases).
  exists r, w'. split; [exact Hrun|]. split; [exact Hf'|].
  destruct (filter (find_matches (partition_key_field self) label uname
                      uvalue) (vertices (store w))) as [|v rest] eqn:Hfind.
  - destruct Hcases as [[_ ->]|[_ ->]]; [now split|].
    split.
    + apply Forall_app. split; [exact Hp|].
      constructor; [|constructor].
      apply (created_has_pk label id_value uvalue properties).
    + intros l x. unfold count_matching.
      rewrite filter_app, length_app. cbn [filter].
      rewrite (created_matches label id_value uvalue properties Hagree).
      destruct (String.eqb label l && String.eqb uvalue x) eqn:E.
      * apply andb_true_iff in E. destruct E as [E1 E2].
        apply String.eqb_eq in E1, E2. subst l x.
        rewrite <- (find_matches_partitioned label uvalue _ Hp), Hfind.
        simpl. lia.
      * specialize (Hu l x). unfold count_matching in Hu.
        simpl. lia.
  - destruct (String.eqb (v_id v) "").
    + destruct Hcases as [_ ->]. now split.
    + destruct Hcases as (_ & -> & _).
      split; [now apply upd_partitioned | now apply upd_unique].
Qed.

(** A sequence of upserts keeps what one upsert keeps. *)
Lemma upserts_keep (calls : list upsert_call) (w : world) :
  Forall (agrees uname) calls -> kept self uname w ->
  exists w',
    Orchestrator.each (upsert self uname) calls w = (Return tt, w')
    /\ kept self uname w'.
Proof.
  revert w. induction calls as [|c calls IH]; intros w Hagree Hkept.
  - exists w. split; [reflexivity | exact Hkept].
  - inversion Hagree as [|? ? Hc Hrest]; subst.
    destruct (upsert_step c w Hc Hkept) as (r & w1 & Hrun & Hkept1).
    destruct (IH w1 Hrest Hkept1) as (w' & Hruns & Hkept').
    exists w'. split; [|exact Hkept'].
    cbn [Orchestrator.each].
    rewrite (bind_return _ _ _ _ _ Hrun). exact Hruns.
Qed.

Lemma first_result_map {A} (f : A -> answer) (l : list A) (x : A) :
  In x l -> first_result (Some (map f l)) <> None.
Proof. destruct l; [intros [] | discriminate]. Qed.

Lemma filter_head_In {A} (f : A -> bool) (l : list A) x rest :
  filter f l = x :: rest -> In x l /\ f x = true.
Proof.
  intros H. apply filter_In. rewrite H. now left.
Qed.

(** After an upsert that returned a vertex, the lookup for its label and
    unique value finds a vertex, and that vertex has an id. *)
Lemma upsert_leaves_match (c : upsert_call) (w w1 : world) r1 :
  agrees uname c -> kept self uname w ->
  upsert self uname c w = (Return r1, w1) -> r1 <> None ->
  gremlin_client self = Some Handle
  /\ (exists label uvalue v rest,
        c_label c = Some label /\ label <> ""
        /\ c_unique_value c = Some uvalue /\ uname <> ""
        /\ filter (find_matches (partition_key_field self) label uname
                     uvalue) (vertices (store w1)) = v :: rest
        /\ v_id v <> "").
Proof.
  intros Hagree (Hf & Hp & Hu) Hrun Hr1.
  destruct c as [l i uv properties]. unfold upsert in Hrun.
  cbn [c_label c_id_value c_unique_value c_properties] in *.
  destruct (negb (truthy l) || negb (truthy i)
            || negb (truthy (Some uname)) || is_None uv) eqn:Hvalid.
  { unfold upsert_vertex in Hrun. rewrite Hvalid in Hrun.
    inversion Hrun. congruence. }
  apply orb_false_iff in Hvalid. destruct Hvalid as [Hvalid Huv].
  apply orb_false_iff in Hvalid. destruct Hvalid as [Hvalid Hun].
  apply orb_false_iff in Hvalid. destruct Hvalid as [Hl Hi].
  apply negb_false_iff, truthy_inv in Hl, Hi, Hun.
  destruct Hl as (label & -> & Hl). destruct Hi as (id_value & -> & Hi).
  destruct Hun as (u & Hu' & Hun). injection Hu' as <-.
  destruct uv as [uvalue|]; [clear Huv | discriminate].
  destruct (gremlin_client self) as [[]|] eqn:Hc.
  2:{ destruct (upsert_without_client (Some label) (Some id_value)
                  (Some uname) (Some uvalue) properties w Hc)
        as (w' & Hrun' & _).
      rewrite Hrun in Hrun'. inversion Hrun'. congruence. }
  split; [reflexivity|].
  destruct (upsert_run self label id_value uname uvalue properties w Hc Hf
              Hl Hi Hun) as (r & w' & Hrun' & _ & Hcases).
  rewrite Hrun in Hrun'. inversion Hrun'; subst r w'. clear Hrun'.
  exists label, uvalue.
  destruct (filter (find_matches (partition_key_field self) label uname
                      uvalue) (vertices (store w))) as [|v rest] eqn:Hfind.
  - destruct Hcases as [[-> _]|[_ Hvs]]; [congruence|].
    eexists; exists []. repeat split; try assumption.
    + rewrite Hvs, filter_app, Hfind. cbn [filter app].
      now rewrite (created_find_matches label id_value uvalue properties
                     Hagree).
    + exact Hi.
  - destruct (String.eqb (v_id v) "") eqn:Hid.
    + destruct Hcases as [-> _]. congruence.
    + destruct Hcases as (_ & Hvs & _).
      eexists; eexists. repeat split; try assumption.
      * rewrite Hvs, filter_map_comm.
        rewrite (filter_ext _ _ (upd_find_matches (v_id v) label
                                   (filtered_properties uname uvalue
                                      properties) label uvalue)).
        rewrite Hfind. cbn [map]. reflexivity.
      * rewrite updated_id. now apply String.eqb_neq.
Qed.

(** A second upsert for the same label and unique value, coming after one
    that returned a vertex, finds that vertex and updates it. *)
Lemma upsert_again (c1 c2 : upsert_call) (w w1 : world) r1 :
  agrees uname c1 -> agrees uname c2 -> kept self uname w ->
  c_label c2 = c_label c1 -> c_unique_value c2 = c_unique_value c1 ->
  truthy (c_id_value c2) = true ->
  upsert self uname c1 w = (Return r1, w1) -> r1 <> None ->
  exists r2 w2 vertex_id,
    upsert self uname c2 w1 = (Return r2, w2)
    /\ r2 <> None
    /\ count_matching (unwrap (c_label c1)) uname
         (unwrap (c_unique_value c1)) (vertices (store w2)) = 1
    /\ List.length (vertices (store w2))
       = List.length (vertices (store w1))
    /\ wire w2
       = (wire w1
          ++ [find_query (partition_key_field self) (unwrap (c_label c1))
                uname (unwrap (c_unique_value c1));
              update_query (partition_key_field self) vertex_id
                (unwrap (c_label c1)) uname
                (filtered_properties uname (unwrap (c_unique_value c1))
                   (c_properties c2))])%list.
Proof.
  intros Hagree1 Hagree2 Hkept Hlabel Huvalue Hid2 Hrun1 Hr1.
  destruct (upsert_step c1 w Hagree1 Hkept) as (r & w' & Hrun & Hkept1).
  rewrite Hrun1 in Hrun. inversion Hrun; subst r w'. clear Hrun.
  destruct (upsert_leaves_match c1 w w1 r1 Hagree1 Hkept Hrun1 Hr1)
    as (Hc & label & uvalue & v & rest & Hl & Hlne & Huv & Hune & Hfind
        & Hvid).
  destruct Hkept1 as (Hf1 & Hp1 & Hu1).
  destruct c2 as [l2 i2 uv2 properties2].
  cbn [c_label c_id_value c_unique_value c_properties] in *.
  rewrite Hl, Huv in *. subst l2 uv2. cbn [unwrap].
  apply truthy_inv in Hid2. destruct Hid2 as (id2 & -> & Hid2).
  destruct (upsert_run self label id2 uname uvalue properties2 w1 Hc Hf1
              Hlne Hid2 Hune) as (r2 & w2 & Hrun2 & _ & Hcases).
  rewrite Hfind in Hcases.
  apply String.eqb_neq in Hvid. rewrite Hvid in Hcases.
  destruct Hcases as (Hr2 & Hvs2 & Hwire).
  exists r2, w2, (v_id v). unfold upsert.
  cbn [c_label c_id_value c_unique_value c_properties].
  split; [exact Hrun2|].
  destruct (filter_head_In _ _ _ _ Hfind) as [Hin Hmatch].
  split; [|split; [|split]].
  - rewrite Hr2. apply first_result_map with (x := v).
    apply filter_In. split; [exact Hin|].
    unfold update_selects. rewrite String.eqb_refl.
    unfold find_matches in Hmatch.
    apply andb_true_iff in Hmatch. destruct Hmatch as [Hmatch _].
    apply andb_true_iff in Hmatch. destruct Hmatch as [_ Hpk].
    now rewrite Hpk.
  - rewrite Hvs2, upd_count.
    specialize (Hu1 label uvalue). unfold count_matching in *.
    rewrite <- (find_matches_partitioned label uvalue _ Hp1) in *.
    rewrite Hfind in *. simpl in *. lia.
  - rewrite Hvs2. apply length_map.
  - exact Hwire.
Qed.

End UpsertInvariant.

(** C1, as the code has it. Let the partition key field be neither [id]
    nor [label], and the unique property neither the partition key field
    nor [label]. Start from a store whose submissions go through, in which
    every vertex carries its label under the partition key and no two
    vertices of one label share a value of the unique property. Then any
    sequence of [upsert_vertex] calls on that unique property, each naming
    one value for it, runs to its end and leaves such a store. And when one
    such call has returned a vertex, a second call for the same label and
    unique value returns a vertex too, sends the lookup and an update
    statement, adds no vertex, and leaves exactly one vertex of that label
    with that value. *)
Theorem upsert_sequence_keeps_unique
  (self : CosmosGraphClient) (uname : string) :
  partition_key_field self <> "id" ->
  partition_key_field self <> "label" ->
  uname <> partition_key_field self ->
  uname <> "label" ->
  (forall (calls : list upsert_call) (w : world),
     Forall (agrees uname) calls ->
     faults w = [] ->
     partitioned (partition_key_field self) (vertices (store w)) ->
     unique_on uname (vertices (store w)) ->
     exists w',
       Orchestrator.each (upsert self uname) calls w = (Return tt, w')
       /\ partitioned (partition_key_field self) (vertices (store w'))
       /\ unique_on uname (vertices (store w')))
  /\ (forall (c1 c2 : upsert_call) (w w1 : world) (r1 : option answer),
        agrees uname c1 -> agrees uname c2 ->
        faults w = [] ->
        partitioned (partition_key_field self) (vertices (store w)) ->
        unique_on uname (vertices (store w)) ->
        c_label c2 = c_label c1 ->
        c_unique_value c2 = c_unique_value c1 ->
        truthy (c_id_value c2) = true ->
        upsert self uname c1 w = (Return r1, w1) -> r1 <> None ->
        exists r2 w2 vertex_id,
          upsert self uname c2 w1 = (Return r2, w2)
          /\ r2 <> None
          /\ count_matching (unwrap (c_label c1)) uname
               (unwrap (c_unique_value c1)) (vertices (store w2)) = 1
          /\ List.length (vertices (store w2))
             = List.length (vertices (store w1))
          /\ wire w2
             = (wire w1
                ++ [find_query (partition_key_field self)
                      (unwrap (c_label c1)) uname
                      (unwrap (c_unique_value c1));
                    update_query (partition_key_field self) vertex_id
                      (unwrap (c_label c1)) uname
                      (filtered_properties uname
                         (unwrap (c_unique_value c1))
                         (c_properties c2))])%list).
Proof.
  intros H1 H2 H3 H4. split.
  - intros calls w Hagree Hf Hp Hu.
    destruct (upserts_keep self uname H1 H2 H3 H4 calls w Hagree
                (conj Hf (conj Hp Hu))) as (w' & Hrun & _ & Hp' & Hu').
    exists w'. auto.
  - intros c1 c2 w w1 r1 Ha1 Ha2 Hf Hp Hu Hl Hv Hi Hrun Hr.
    apply (upsert_again self uname H1 H2 H3 H4 c1 c2 w w1 r1 Ha1 Ha2
             (conj Hf (conj Hp Hu)) Hl Hv Hi Hrun Hr).
Qed.

Lemma upsert_sequence_keeps_unique_witness :
  let self := connect (init "resourceType") in
  let domain :=
    {| c_label := Some "Domain"; c_id_value := Some "D1";
       c_unique_value := Some "D1";
       c_properties := [("id", VStr "D1"); ("resourceType", VStr "Domain");
                        ("name", VStr "Sales")] |} in
  exists w',
    Orchestrator.each (upsert self "id") [domain; domain]
      (start (holding [])) = (Return tt, w')
    /\ partitioned "resourceType" (vertices (store w'))
    /\ unique_on "id" (vertices (store w')).
Proof.
  intros self domain.
  apply (upsert_sequence_keeps_unique self "id").
  - discriminate.
  - discriminate.
  - discriminate.
  - discriminate.
  - repeat constructor.
  - reflexivity.
  - constructor.
  - intros label uvalue. unfold count_matching. simpl. lia.
Defined.

(** The same two upserts, evaluated: one vertex, created by the first
    call and updated by the second. *)
Example upsert_twice_run :
  let self := connect (init "resourceType") in
  let domain :=
    {| c_label := Some "Domain"; c_id_value := Some "D1";
       c_unique_value := Some "D1";
       c_properties := [("id", VStr "D1"); ("resourceType", VStr "Domain");
                        ("name", VStr "Sales")] |} in
  let w' := snd (Orchestrator.each (upsert self "id") [domain; domain]
                   (start (holding []))) in
  vertices (store w')
  = [ {| v_id := "D1"; v_label := "Domain";
         v_props := [("resourceType", VStr "Domain");
                     ("name", VStr "Sales")] |} ]
  /\ wire w'
     = [ "g.V().hasLabel('Domain').has('resourceType', 'Domain').has('id', 'D1').limit(1)";
         "g.addV('Domain').property('id', 'D1').property('resourceType', 'Domain').property('name', 'Sales')";
         "g.V().hasLabel('Domain').has('resourceType', 'Domain').has('id', 'D1').limit(1)";
         "g.V('D1').has('resourceType', 'Domain').property('name', 'Sales')" ].
Proof. split; reflexivity. Qed.

(** C1 as stated fails. The store holds one vertex of label [person],
    created through [create_vertex] with [resourceType] set to [Asset]: the
    uniqueness invariant holds. The lookup of [upsert_vertex] asks for the
    partition key to equal the label, does not find that vertex, and the
    upsert creates a second vertex with the same label and email. A second
    identical upsert updates the vertex the first one created: two vertices
    remain. *)
Lemma upsert_duplicates_vertex_of_other_partition :
  let self := connect (init "resourceType") in
  let w0 :=
    snd (create_vertex self "person"
           (Some [("id", VStr "P1"); ("email", VStr "a@x");
                  ("resourceType", VStr "Asset")])
           (start (collection "resourceType" []))) in
  let c := {| c_label := Some "person"; c_id_value := Some "P2";
              c_unique_value := Some "a@x";
              c_properties := [("email", VStr "a@x")] |} in
  let w1 := snd (upsert self "email" c w0) in
  let w2 := snd (upsert self "email" c w1) in
  unique_on "email" (vertices (store w0))
  /\ agrees "email" c
  /\ ~ unique_on "email" (vertices (store w1))
  /\ count_matching "person" "email" "a@x" (vertices (store w2)) = 2.
Proof.
  intros self w0 c w1 w2. split; [|split; [|split]].
  - intros label uvalue. unfold count_matching. simpl.
    destruct (matches label "email" uvalue _); simpl; lia.
  - repeat constructor.
  - intros H. specialize (H "person" "a@x"). vm_compute in H. lia.
  - reflexivity.
Qed.

(** The other conditions of the theorem are needed as well. A call whose
    properties name another value for the unique property than
    [unique_property_value] is looked up under one value and stored under
    the other: *)
Example upsert_of_two_values :
  let self := connect (init "resourceType") in
  let c id := {| c_label := Some "person"; c_id_value := Some id;
                 c_unique_value := Some "a@x";
                 c_properties := [("email", VStr "b@x")] |} in
  let w2 := snd (Orchestrator.each (upsert self "email") [c "P1"; c "P2"]
                   (start (collection "resourceType" []))) in
  count_matching "person" "email" "b@x" (vertices (store w2)) = 2.
Proof. reflexivity. Qed.

(** and a lookup that fails is taken for a lookup that finds nothing: *)
Example upsert_after_failed_lookup :
  let self := connect (init "resourceType") in
  let c id := {| c_label := Some "person"; c_id_value := Some id;
                 c_unique_value := Some "a@x"; c_properties := [] |} in
  let w1 := snd (upsert self "email" (c "P1")
                   (start (collection "resourceType" []))) in
  let w1' := {| store := store w1; faults := [true]; wire := wire w1;
                console := console w1 |} in
  let w2 := snd (upsert self "email" (c "P2") w1') in
  count_matching "person" "email" "a@x" (vertices (store w1)) = 1
  /\ count_matching "person" "email" "a@x" (vertices (store w2)) = 2
  /\ console w2
     = [ GremlinQueryError
           "g.V().hasLabel('person').has('resourceType', 'person').has('email', 'a@x').limit(1)"
           GremlinServerError ].
Proof. repeat split. Qed.

(** and when the unique property is the partition key field itself, the
    creation stores the label under it, whatever [unique_property_value]
    is: *)
Example upsert_on_partition_key :
  let self := connect (init "resourceType") in
  let c id := {| c_label := Some "person"; c_id_value := Some id;
                 c_unique_value := Some "x"; c_properties := [] |} in
  let w2 := snd (Orchestrator.each (upsert self "resourceType")
                   [c "P1"; c "P2"]
                   (start (collection "resourceType" []))) in
  count_matching "person" "resourceType" "person" (vertices (store w2)) = 2
  /\ count_matching "person" "resourceType" "x" (vertices (store w2)) = 0.
Proof. split; reflexivity. Qed.

(** * Further properties of the code *)

(** ** The fetchers at their edges *)

Section FetchEdges.
Import Collibra.

Context {R : Type}.
Variable COLLIBRA_URL : string.

(** Against a catalog that paginates a non-empty [db],
    [get_all_collibra_assets_basic_auth] returns [db] after
    [ceil(total/100)] requests; the request number [j] asks for the offset
    [100 * j] and the limit 100, in its url. *)
Theorem assets_fetch_returns_all_records
  (db : list R) (default_limit fuel : nat) :
  0 < List.length db ->
  (List.length db + 99) / 100 <= fuel ->
  let run := get_all_collibra_assets_basic_auth COLLIBRA_URL fuel
               (paging_server db default_limit) in
  fst run = Return db
  /\ List.length (snd run) = (List.length db + 99) / 100
  /\ forall j rq,
       nth_error (snd run) j = Some rq ->
       query rq = [("offset", VInt (Z.of_nat (100 * j)));
                   ("limit", VInt 100)]
       /\ params rq = None
       /\ url rq = COLLIBRA_URL ++ "/rest/2.0/assets?offset="
                   ++ str (VInt (Z.of_nat (100 * j))) ++ "&limit=100".
Proof.
  intros Hdb Hfuel run. unfold run, get_all_collibra_assets_basic_auth.
  pose proof (assets_loop_paging COLLIBRA_URL db default_limit fuel 0 None
                []) as H.
  replace (100 * 0) with 0 in H by lia.
  cbn [firstn Z.of_nat app] in H.
  rewrite H by lia. rewrite Nat.sub_0_r. cbn [fst snd].
  split; [reflexivity|]. split.
  - now rewrite length_map, length_seq.
  - intros j rq Hj.
    rewrite nth_error_map in Hj.
    destruct (nth_error (seq 0 ((List.length db + 99) / 100)) j)
      as [i|] eqn:Hi; [|discriminate].
    apply nth_error_In in Hi as Hin. apply in_seq in Hin.
    assert (i = j) as ->.
    { assert (j < List.length (seq 0 ((List.length db + 99) / 100)))
        as Hlt by (apply nth_error_Some; rewrite Hi; discriminate).
      rewrite length_seq in Hlt.
      apply nth_error_nth with (d := 0) in Hi.
      rewrite seq_nth in Hi by exact Hlt. lia. }
    cbn in Hj. inversion Hj; subst rq. repeat split.
Qed.


(** When the first reply holds all the records it counts, or gives no
    total, either fetcher makes that one request and returns the page.
    [get_paginated_data] leaves offset 0 and limit 1000 in the dictionary of
    the caller. *)
Theorem fetch_of_a_single_page
  (srv : server R) (fuel : nat) (endpoint : string) (filters : dict)
  (status_code : Z) (data : page R) :
  is_error_status status_code = false ->
  (or_zero (data_total data) <= len (or_empty (data_results data)))%Z ->
  (srv 0 (assets_request COLLIBRA_URL 0 assets_limit)
   = Response status_code data ->
   get_all_collibra_assets_basic_auth COLLIBRA_URL (S fuel) srv
   = (Return (or_empty (data_results data)),
      [assets_request COLLIBRA_URL 0 assets_limit]))
  /\ (srv 0 (paginated_request endpoint) = Response status_code data ->
      get_paginated_data (S fuel) srv endpoint filters
      = (Return (or_empty (data_results data)),
         [paginated_request endpoint],
         set (set filters "offset" (VInt 0)) "limit" (VInt 1000))).
Proof.
  intros Hstatus Htotal. split; intros Hreply.
  - unfold get_all_collibra_assets_basic_auth. cbn [assets_loop app].
    rewrite Hreply, Hstatus.
    replace (_ >=? _)%Z with true
      by (symmetry; apply Z.geb_le; exact Htotal).
    reflexivity.
  - unfold get_paginated_data. cbn [paginated_loop].
    replace (len (@nil R) <? 1)%Z with true by reflexivity.
    cbn [app]. rewrite Hreply, Hstatus.
    replace (0 =? 0)%Z with true by reflexivity.
    destruct fuel as [|fuel]; cbn [paginated_loop];
      replace (_ <? _)%Z with false
        by (symmetry; apply Z.ltb_ge; exact Htotal);
      reflexivity.
Qed.


End FetchEdges.

Lemma assets_fetch_returns_all_records_witness :
  fst (Collibra.get_all_collibra_assets_basic_auth "https://catalog" 3
         (Collibra.paging_server (seq 0 250) 1000)) = Return (seq 0 250)
  /\ List.length
       (snd (Collibra.get_all_collibra_assets_basic_auth "https://catalog" 3
               (Collibra.paging_server (seq 0 250) 1000))) = 3.
Proof.
  destruct (assets_fetch_returns_all_records "https://catalog"
              (seq 0 250) 1000 3) as (Hout & Hlen & _).
  - rewrite length_seq. lia.
  - rewrite length_seq. vm_compute. lia.
  - split; [exact Hout|]. rewrite Hlen, length_seq. reflexivity.
Defined.

Lemma fetch_of_a_single_page_witness :
  Collibra.get_paginated_data 1
    (Collibra.scripted [Collibra.Response 200 {| Collibra.data_results := Some [7; 8; 9];
                               Collibra.data_total := None |}])
    "https://catalog/rest/2.0/relations" [("sourceId", VStr "A1")]
  = (Return [7; 8; 9],
     [Collibra.paginated_request "https://catalog/rest/2.0/relations"],
     [("sourceId", VStr "A1"); ("offset", VInt 0); ("limit", VInt 1000)]).
Proof.
  apply (fetch_of_a_single_page "https://catalog"
           (Collibra.scripted [Collibra.Response 200 {| Collibra.data_results := Some [7; 8; 9];
                                      Collibra.data_total := None |}])
           0 "https://catalog/rest/2.0/relations" [("sourceId", VStr "A1")]
           200 {| Collibra.data_results := Some [7; 8; 9]; Collibra.data_total := None |}).
  - reflexivity.
  - vm_compute. discriminate.
  - reflexivity.
Defined.

Section FetchStall.
Import Collibra.

Context {R : Type}.
Variable COLLIBRA_URL : string.
Variable srv : server R.

(** The catalog keeps answering with an empty page and a positive total. *)
Hypothesis empty_pages :
  forall n rq, exists status_code data,
    srv n rq = Response status_code data
    /\ is_error_status status_code = false
    /\ or_empty (data_results data) = []
    /\ (0 < or_zero (data_total data))%Z.

Lemma assets_loop_stalls (fuel : nat) :
  forall sent response trace,
    assets_loop COLLIBRA_URL fuel srv sent 0 [] response trace
    = (Timeout,
       (trace ++ repeat (assets_request COLLIBRA_URL 0 assets_limit)
                   fuel)%list).
Proof.
  induction fuel as [|fuel IH]; intros sent response trace.
  - simpl. now rewrite app_nil_r.
  - cbn [assets_loop].
    destruct (empty_pages sent (assets_request COLLIBRA_URL 0 assets_limit))
      as (status_code & data & -> & -> & Hempty & Htotal).
    rewrite Hempty. cbn [app].
    replace (len (@nil R) >=? or_zero (data_total data))%Z with false
      by (symmetry; rewrite Z.geb_leb; apply Z.leb_gt; exact Htotal).
    replace (0 + len (@nil R))%Z with 0%Z by reflexivity.
    rewrite IH. cbn [repeat]. now rewrite <- app_assoc.
Qed.

Lemma paginated_loop_stalls (fuel : nat) :
  forall sent endpoint params total trace,
    (0 < total)%Z ->
    fst (paginated_loop fuel srv sent endpoint params [] total 0 trace)
    = (Timeout,
       (trace ++ repeat (paginated_request endpoint) fuel)%list).
Proof.
  induction fuel as [|fuel IH]; intros sent endpoint params total trace Ht;
    cbn [paginated_loop];
    replace (len (@nil R) <? total)%Z with true
      by (symmetry; apply Z.ltb_lt; exact Ht).
  - simpl. now rewrite app_nil_r.
  - destruct (empty_pages sent (paginated_request endpoint))
      as (status_code & data & -> & -> & Hempty & Htotal).
    rewrite Hempty. cbn [app].
    replace (0 =? 0)%Z with true by reflexivity.
    replace (0 + len (@nil R))%Z with 0%Z by reflexivity.
    rewrite IH by exact Htotal. cbn [repeat]. now rewrite <- app_assoc.
Qed.

(** Against a catalog that answers every request with an empty page and a
    positive total, neither fetcher ever returns: whatever the number of
    turns allowed, the loop is still running at the end of them, and each
    turn has sent the same request, at offset 0. *)
Theorem fetch_never_returns_on_empty_pages
  (fuel : nat) (endpoint : string) (filters : dict) :
  get_all_collibra_assets_basic_auth COLLIBRA_URL fuel srv
  = (Timeout, repeat (assets_request COLLIBRA_URL 0 assets_limit) fuel)
  /\ fst (get_paginated_data fuel srv endpoint filters)
     = (Timeout, repeat (paginated_request endpoint) fuel).
Proof.
  split.
  - unfold get_all_collibra_assets_basic_auth. apply assets_loop_stalls.
  - unfold get_paginated_data. now rewrite paginated_loop_stalls.
Qed.

End FetchStall.

Lemma fetch_never_returns_on_empty_pages_witness :
  fst (Collibra.get_all_collibra_assets_basic_auth "https://catalog" 50
         (fun _ _ =>
            Collibra.Response 200
              {| Collibra.data_results := Some (@nil nat);
                 Collibra.data_total := Some 3%Z |}))
  = Timeout.
Proof.
  rewrite (proj1 (fetch_never_returns_on_empty_pages "https://catalog"
                    (fun _ _ =>
                       Collibra.Response 200
                         {| Collibra.data_results := Some (@nil nat);
                            Collibra.data_total := Some 3%Z |})
                    (fun _ _ =>
                       ex_intro _ 200%Z
                         (ex_intro _
                            {| Collibra.data_results := Some (@nil nat);
                               Collibra.data_total := Some 3%Z |}
                            (conj eq_refl
                               (conj eq_refl (conj eq_refl eq_refl)))))
                    50 "" [])).
  reflexivity.
Defined.

(** ** The client at its edges *)

Section ClientEdges.

(** [_escape_gremlin_string] tells values apart: two different values
    never give the same escaped text. *)
Theorem escape_tells_values_apart (s t : string) :
  s <> t -> _escape_gremlin_string s <> _escape_gremlin_string t.
Proof.
  intros Hne Heq. apply Hne. clear Hne. revert t Heq.
  induction s as [|c s IH]; intros [|d t] Heq.
  - reflexivity.
  - simpl in Heq. destruct (Ascii.eqb d quote); discriminate.
  - simpl in Heq. destruct (Ascii.eqb c quote); discriminate.
  - simpl in Heq.
    destruct (Ascii.eqb c quote) eqn:Ec, (Ascii.eqb d quote) eqn:Ed.
    + apply Ascii.eqb_eq in Ec, Ed. subst c d.
      inversion Heq as [H]. now rewrite (IH t H).
    + inversion Heq as [[Hd H]]. subst d.
      destruct t as [|e t]; [discriminate|].
      simpl in H. destruct (Ascii.eqb e quote) eqn:Ee.
      * inversion H.
      * inversion H; subst e. discriminate.
    + inversion Heq as [[Hc H]]. subst c.
      destruct s as [|e s]; [discriminate|].
      simpl in H. destruct (Ascii.eqb e quote) eqn:Ee.
      * inversion H.
      * inversion H; subst e. discriminate.
    + inversion Heq as [[Hc H]]. now rewrite (IH t H).
Qed.

(** [_execute_query] fails closed: it returns in every case and raises
    in none. Without a client it sends nothing, prints that it is not
    connected and returns the empty list. With a client, a statement that
    goes through gives the answer of the store to it: the text has been
    sent, the store is what the statement made of it, and no diagnostic of a
    failure is printed. A statement the server fails gives the empty list
    and one diagnostic of the failure; nothing is said of the store after
    it. [run_query] is [_execute_query]. *)
Theorem execute_query_fails_closed
  (self : CosmosGraphClient) (q : query) (w : world) :
  (exists answers w', _execute_query self q w = (Return answers, w'))
  /\ (gremlin_client self = None ->
      _execute_query self q w = (Return [], logged NotConnected w))
  /\ (gremlin_client self <> None ->
      (forall answers g',
         (forall rest, faults w <> true :: rest) ->
         exec (q_sem q) (store w) = Some (answers, g') ->
         exists w',
           _execute_query self q w = (Return answers, w')
           /\ store w' = g'
           /\ wire w' = (wire w ++ [q_text q])%list
           /\ console w' = console w)
      /\ ((exists rest, faults w = true :: rest)
          \/ exec (q_sem q) (store w) = None ->
          exists w',
            _execute_query self q w = (Return [], w')
            /\ console w'
               = (console w
                  ++ [QueryExecutionError GremlinServerError])%list))
  /\ run_query self q w = _execute_query self q w.
Proof.
  unfold run_query, _execute_query, submit.
  destruct (gremlin_client self) as [h|].
  - split; [|split; [discriminate|split; [|reflexivity]]].
    + unfold try_except, send.
      destruct (faults w) as [|[|] rest];
        try (destruct (exec (q_sem q) (store w)) as [[answers g']|]);
        eexists; eexists; reflexivity.
    + intros _. split.
      * intros answers g' Hfaults Hexec. unfold try_except, send.
        rewrite Hexec.
        destruct (faults w) as [|[|] rest]; [| now destruct (Hfaults rest) |];
          eexists; (split; [reflexivity|]); repeat split.
      * intros Hfail. unfold try_except, send.
        destruct Hfail as [[rest Hf] | Hf]; rewrite Hf.
        -- eexists. split; reflexivity.
        -- destruct (faults w) as [|[|] rest];
             eexists; split; reflexivity.
  - split; [|split; [|split; [congruence | reflexivity]]].
    + eexists; eexists; reflexivity.
    + reflexivity.
Qed.

End ClientEdges.

Lemma escape_tells_values_apart_witness :
  _escape_gremlin_string "it's" <> _escape_gremlin_string "it\'s".
Proof.
  apply (escape_tells_values_apart "it's" "it\'s"). discriminate.
Defined.

Lemma execute_query_fails_closed_witness :
  exists w',
    _execute_query (connect (init "resourceType")) Orchestrator.count_query
      (start (holding [])) = (Return [ANum 0], w')
    /\ wire w' = ["g.V().count()"].
Proof.
  destruct (execute_query_fails_closed (connect (init "resourceType"))
              Orchestrator.count_query (start (holding [])))
    as (_ & _ & Hclient & _).
  destruct Hclient as [Hthrough _]; [discriminate|].
  destruct (Hthrough [ANum 0] (holding []))
    as (w' & Hrun & _ & Hwire & _).
  - intros rest. discriminate.
  - reflexivity.
  - exists w'. split; [exact Hrun | rewrite Hwire; reflexivity].
Defined.

Section UpsertOutcome.
Import Outcome.

Variable self : CosmosGraphClient.

(** [_execute_gremlin_query] returns in every case. Without a client
    nothing is sent; with one the text is sent, and the result is [None] or
    the answer of the store to the statement. *)
Lemma execute_gremlin_query_cases (q : query) (w : world) :
  exists r w',
    _execute_gremlin_query self q w = (Return r, w')
    /\ ((gremlin_client self = None
         /\ r = None /\ wire w' = wire w /\ store w' = store w)
        \/ (gremlin_client self <> None
            /\ wire w' = (wire w ++ [q_text q])%list
            /\ (r = None
                \/ exists answers,
                     r = Some answers
                     /\ exec (q_sem q) (store w)
                        = Some (answers, store w')))).
Proof.
  unfold _execute_gremlin_query, submit.
  destruct (gremlin_client self) as [h|].
  - unfold try_except, bind, send.
    destruct (faults w) as [|[|] rest];
      try (destruct (exec (q_sem q) (store w)) as [[answers g']|] eqn:E);
      simpl; eexists; eexists; (split; [reflexivity|]); right;
      (split; [discriminate|]); (split; [reflexivity|]);
      try (left; reflexivity);
      right; exists answers; split; reflexivity.
  - run. eexists; eexists. split; [reflexivity|]. left. now repeat split.
Qed.

Lemma insert_yields_stored pk label id_value assigns :
  yields_stored (Insert pk label id_value assigns).
Proof.
  intros g0 answers g' a Hexec Ha. cbn [exec] in Hexec.
  destruct (accepts g0 (vertices g0) _); [|discriminate].
  inversion Hexec; subst answers g'. inversion Ha; subst a.
  eexists. split; [reflexivity|]. cbn [vertices with_vertices].
  apply in_or_app. right. now left.
Qed.

Lemma update_yields_stored pk vertex_id label assigns :
  yields_stored (Update pk vertex_id label assigns).
Proof.
  intros g0 answers g' a Hexec Ha. cbn [exec] in Hexec.
  inversion Hexec; subst answers g'.
  destruct (filter (update_selects pk vertex_id label) (vertices g0))
    as [|x xs] eqn:Hsel; [discriminate|].
  inversion Ha; subst a. eexists. split; [reflexivity|].
  cbn [vertices with_vertices]. apply in_map.
  now destruct (filter_head_In _ _ _ _ Hsel).
Qed.

(** The write of [upsert_vertex], on a client that holds a handle: the
    text is sent, and a result is a vertex the store holds. *)
Lemma upsert_write_outcome (q : query) (w0 : world) :
  gremlin_client self <> None -> yields_stored (q_sem q) ->
  exists r w',
    bind (_execute_gremlin_query self q)
         (fun results => ret (first_result results)) w0
    = (Return r, w')
    /\ wire w' = (wire w0 ++ [q_text q])%list
    /\ (forall a, r = Some a ->
          exists v, a = AVertex v /\ In v (vertices (store w'))).
Proof.
  intros Hc Hy.
  destruct (execute_gremlin_query_cases q w0)
    as (r1 & w1 & Hrun & [[Hnone _]|(_ & Hwire & Hr)]); [congruence|].
  rewrite (bind_return _ _ _ _ _ Hrun). cbn [ret].
  exists (first_result r1), w1. split; [reflexivity|].
  split; [exact Hwire|]. intros a Ha.
  destruct Hr as [->|(answers & -> & Hexec)]; [discriminate|].
  exact (Hy _ _ _ _ Hexec Ha).
Qed.

Lemma refused_guard label id_value uname uvalue :
  negb (truthy label) || negb (truthy id_value) || negb (truthy uname)
  || is_None uvalue = true
  <-> refused label id_value uname uvalue.
Proof.
  unfold refused.
  rewrite !orb_true_iff, !negb_true_iff.
  destruct uvalue; cbn [is_None]; intuition congruence.
Qed.

(** [upsert_vertex], called with strings or [None] for its four first
    arguments and a dictionary for the fifth, on a store whose vertices have
    strings for ids, returns in every case and raises in none; a lookup or
    a write the server fails gives [None]. It sends at most two statements:
    the lookup, then one write. It sends none exactly when it refuses its
    arguments or has no client. It sends the lookup alone only when the
    lookup returned a vertex of the store whose id is empty. When it sent
    no write it returns [None] and the store is as it was. When it returns
    a result, the lookup and a write were sent, and the result is a vertex
    that the store holds after the call. *)
Theorem upsert_returns_none_or_stored_vertex
  (label id_value unique_property_name unique_property_value
   : option string) (properties : dict) (w : world) :
  let pk := partition_key_field self in
  let lookup :=
    find_query pk (unwrap label) (unwrap unique_property_name)
      (unwrap unique_property_value) in
  exists r w' sent,
    upsert_vertex self label id_value unique_property_name
      unique_property_value properties w = (Return r, w')
    /\ wire w' = (wire w ++ sent)%list
    /\ (sent = [] \/ sent = [lookup] \/ exists write, sent = [lookup; write])
    /\ (sent = [] <->
        refused label id_value unique_property_name unique_property_value
        \/ gremlin_client self = None)
    /\ (sent = [lookup] ->
        exists v,
          In v (vertices (store w))
          /\ find_matches pk (unwrap label) (unwrap unique_property_name)
               (unwrap unique_property_value) v = true
          /\ v_id v = "")
    /\ (sent = [] \/ sent = [lookup] -> r = None /\ store w' = store w)
    /\ (forall a, r = Some a ->
          exists v write,
            a = AVertex v /\ In v (vertices (store w'))
            /\ sent = [lookup; write]).
Proof.
  intros pk lookup. unfold upsert_vertex.
  destruct (negb (truthy label) || negb (truthy id_value)
            || negb (truthy unique_property_name)
            || is_None unique_property_value) eqn:Hguard.
  { apply refused_guard in Hguard.
    exists None, (logged UpsertArgumentsRequired w), [].
    split; [reflexivity|]. split; [now rewrite app_nil_r|].
    split; [now left|]. split; [tauto|].
    split; [discriminate|]. split; [now split | discriminate]. }
  assert (~ refused label id_value unique_property_name
              unique_property_value) as Hvalid.
  { intros H. apply refused_guard in H. congruence. }
  cbv zeta.
  set (l := unwrap label). set (i := unwrap id_value).
  set (u := unwrap unique_property_name).
  set (uv := unwrap unique_property_value).
  set (filtered := filtered_properties u uv properties).
  fold pk. unfold _find_vertex. fold pk.
  destruct (execute_gremlin_query_cases
              {| q_text := find_query pk l u uv;
                 q_sem := Find pk l u uv |} w)
    as (r0 & w0 & Hfind & Hcases).
  rewrite (bind_return _ _ _ _ (first_result r0)
             (bind_return _ _ _ _ _ Hfind)).
  cbn [q_text q_sem] in Hcases. fold lookup in Hcases.
  destruct Hcases as [(Hc & -> & Hw0 & Hs0)|(Hc & Hw0 & Hr0)].
  - (* no client: the creation path, that sends nothing either *)
    cbn [first_result found].
    destruct (execute_gremlin_query_cases
                {| q_text := insert_query pk l i filtered;
                   q_sem := Insert pk l i
                              (filter (fun kv =>
                                         negb (create_skips pk (fst kv)))
                                      filtered) |} w0)
      as (r1 & w1 & Hrun & [(_ & -> & Hw1 & Hs1)|(Hc' & _)]);
      [|congruence].
    rewrite (bind_return _ _ _ _ _ Hrun). cbn [ret first_result].
    exists None, w1, [].
    split; [reflexivity|]. split; [rewrite app_nil_r; congruence|].
    split; [now left|]. split; [tauto|].
    split; [discriminate|].
    split; [intros _; split; congruence | discriminate].
  - assert (forall q : query,
              yields_stored (q_sem q) ->
              exists r w' sent,
                bind (_execute_gremlin_query self q)
                     (fun results => ret (first_result results)) w0
                = (Return r, w')
                /\ wire w' = (wire w ++ sent)%list
                /\ (sent = [] \/ sent = [lookup]
                    \/ exists write, sent = [lookup; write])
                /\ (sent = [] <->
                    refused label id_value unique_property_name
                      unique_property_value
                    \/ gremlin_client self = None)
                /\ (sent = [lookup] ->
                    exists v,
                      In v (vertices (store w))
                      /\ find_matches pk l u uv v = true /\ v_id v = "")
                /\ (sent = [] \/ sent = [lookup] ->
                    r = None /\ store w' = store w)
                /\ (forall a, r = Some a ->
                      exists v write,
                        a = AVertex v /\ In v (vertices (store w'))
                        /\ sent = [lookup; write])) as Hwrite.
    { intros q Hy.
      destruct (upsert_write_outcome q w0 Hc Hy)
        as (r & w' & Hrun & Hwire & Hsome).
      exists r, w', [lookup; q_text q].
      split; [exact Hrun|].
      split; [rewrite Hwire, Hw0, <- app_assoc; reflexivity|].
      split; [right; right; now exists (q_text q)|].
      split; [split; [discriminate | tauto]|].
      split; [discriminate|].
      split; [intros [H|H]; discriminate H|].
      intros a Ha. destruct (Hsome a Ha) as (v & Hv & Hin).
      exists v, (q_text q). now repeat split. }
    destruct Hr0 as [->|(answers & -> & Hexec)].
    + cbn [first_result found].
      apply Hwrite. apply insert_yields_stored.
    + cbn [exec] in Hexec. inversion Hexec as [[Ha Hs0]].
      destruct (filter (find_matches pk l u uv) (vertices (store w)))
        as [|v rest] eqn:Hf; cbn [firstn map first_result found].
      * apply Hwrite. apply insert_yields_stored.
      * cbn [get_id]. rewrite (bind_return _ _ _ _ (Some (v_id v)) eq_refl).
        destruct (v_id v) as [|c vid] eqn:Hvid; cbn [truthy negb unwrap].
        -- exists None, (logged FoundVertexHasNoId w0), [lookup].
           split; [reflexivity|]. split; [exact Hw0|].
           split; [right; now left|].
           split; [split; [discriminate | tauto]|].
           split.
           { intros _. exists v.
             destruct (filter_head_In _ _ _ _ Hf) as [Hin Hm].
             now repeat split. }
           split; [intros _; split; [reflexivity | now symmetry] |].
           discriminate.
        -- apply Hwrite. apply update_yields_stored.
Qed.

End UpsertOutcome.

Lemma upsert_returns_none_or_stored_vertex_witness :
  exists v w',
    upsert_vertex (connect (init "resourceType")) (Some "Domain")
      (Some "D1") (Some "id") (Some "D1") [("name", VStr "Sales")]
      (start (holding [])) = (Return (Some (AVertex v)), w')
    /\ In v (vertices (store w'))
    /\ List.length (wire w') = 2.
Proof.
  destruct (upsert_returns_none_or_stored_vertex
              (connect (init "resourceType")) (Some "Domain") (Some "D1")
              (Some "id") (Some "D1") [("name", VStr "Sales")]
              (start (holding [])))
    as (r & w' & sent & Hrun & Hwire & _ & _ & _ & _ & Hsome).
  pose proof (f_equal fst Hrun) as Hr. vm_compute in Hr.
  inversion Hr as [Hr']. symmetry in Hr'.
  destruct (Hsome _ Hr') as (v & write & Hv & Hin & Hsent).
  exists v, w'. split; [|split].
  - rewrite Hrun, Hr', Hv. reflexivity.
  - exact Hin.
  - rewrite Hwire, Hsent. reflexivity.
Defined.


(** ** The creation statement of [upsert_vertex] *)



(** ** The lookup after an upsert *)

Section FindAfterUpsert.

Variable self : CosmosGraphClient.
Variable uname : string.

Hypothesis pk_not_id : partition_key_field self <> "id".
Hypothesis pk_not_label : partition_key_field self <> "label".
Hypothesis uname_not_pk : uname <> partition_key_field self.
Hypothesis uname_not_label : uname <> "label".

(** Insert, then look up. On a store that answers, once [upsert_vertex]
    has returned a vertex for a call that names one value for the unique
    property, [_find_vertex] for the label and unique value of that call
    returns a vertex: one of that label, with that value, and with a
    non-empty id. *)
Theorem find_after_upsert (c : upsert_call) (w w1 : world) (a : answer) :
  faults w = [] -> agrees uname c ->
  upsert self uname c w = (Return (Some a), w1) ->
  exists v,
    _find_vertex self (unwrap (c_label c)) uname
      (unwrap (c_unique_value c)) w1
    = (Return (Some (AVertex v)),
       looked_up self (unwrap (c_label c)) uname
         (unwrap (c_unique_value c)) w1)
    /\ v_label v = unwrap (c_label c)
    /\ has uname (unwrap (c_unique_value c)) v = true
    /\ v_id v <> "".
Proof.
  intros Hf Hagree Hrun.
  destruct c as [l i uv properties]. unfold upsert in Hrun.
  cbn [c_label c_id_value c_unique_value c_properties] in *.
  destruct (negb (truthy l) || negb (truthy i)
            || negb (truthy (Some uname)) || is_None uv) eqn:Hvalid.
  { unfold upsert_vertex in Hrun. rewrite Hvalid in Hrun.
    inversion Hrun. }
  apply orb_false_iff in Hvalid. destruct Hvalid as [Hvalid Huv].
  apply orb_false_iff in Hvalid. destruct Hvalid as [Hvalid Hun].
  apply orb_false_iff in Hvalid. destruct Hvalid as [Hl Hi].
  apply negb_false_iff, truthy_inv in Hl, Hi, Hun.
  destruct Hl as (label & -> & Hl). destruct Hi as (id_value & -> & Hi).
  destruct Hun as (u & Hu' & Hun). injection Hu' as <-.
  destruct uv as [uvalue|]; [clear Huv | discriminate].
  destruct (gremlin_client self) as [[]|] eqn:Hc.
  2:{ destruct (upsert_without_client self (Some label) (Some id_value)
                  (Some uname) (Some uvalue) properties w Hc)
        as (w' & Hrun' & _).
      rewrite Hrun in Hrun'. inversion Hrun'. }
  destruct (upsert_run self label id_value uname uvalue properties w Hc Hf
              Hl Hi Hun) as (r & w' & Hrun' & Hf1 & Hcases).
  rewrite Hrun in Hrun'. inversion Hrun'; subst r w'. clear Hrun'.
  cbn [unwrap].
  rewrite (find_vertex_connected self label uname uvalue w1 Hc Hf1).
  assert (exists v rest,
            filter (find_matches (partition_key_field self) label uname
                      uvalue) (vertices (store w1)) = v :: rest
            /\ v_id v <> "") as (v & rest & Hfound & Hid).
  { destruct (filter (find_matches (partition_key_field self) label uname
                        uvalue) (vertices (store w))) as [|v rest] eqn:Hfind.
    - destruct Hcases as [[Habs _]|[_ Hvs]]; [discriminate|].
      eexists; exists []. split.
      + rewrite Hvs, filter_app, Hfind. cbn [filter app].
        now rewrite (created_find_matches self uname pk_not_id pk_not_label
                       uname_not_pk uname_not_label label id_value uvalue
                       properties Hagree).
      + exact Hi.
    - destruct (String.eqb (v_id v) "") eqn:Hid.
      + destruct Hcases as [Habs _]. discriminate.
      + destruct Hcases as (_ & Hvs & _).
        eexists; eexists. split.
        * rewrite Hvs, filter_map_comm.
          rewrite (filter_ext _ _ (upd_find_matches self uname (v_id v)
                                     label
                                     (filtered_properties uname uvalue
                                        properties) label uvalue)).
          rewrite Hfind. cbn [map]. reflexivity.
        * rewrite updated_id. now apply String.eqb_neq. }
  rewrite Hfound. cbn [firstn map first_result].
  exists v. split; [reflexivity|].
  destruct (filter_head_In _ _ _ _ Hfound) as [_ Hm].
  unfold find_matches in Hm.
  apply andb_true_iff in Hm. destruct Hm as [Hm Hhas].
  apply andb_true_iff in Hm. destruct Hm as [Hlabel _].
  apply String.eqb_eq in Hlabel. auto.
Qed.

End FindAfterUpsert.

Lemma find_after_upsert_witness :
  let self := connect (init "resourceType") in
  let c := {| c_label := Some "person"; c_id_value := Some "P1";
              c_unique_value := Some "a@x";
              c_properties := [("name", VStr "Al")] |} in
  exists v,
    fst (_find_vertex self "person" "email" "a@x"
           (snd (upsert self "email" c
                   (start (collection "resourceType" [])))))
    = Return (Some (AVertex v))
    /\ v_id v <> "".
Proof.
  intros self c.
  destruct (find_after_upsert self "email") with
    (c := c) (w := start (collection "resourceType" []))
    (w1 := snd (upsert self "email" c
                  (start (collection "resourceType" []))))
    (a := AVertex
            {| v_id := "P1"; v_label := "person";
               v_props := [("resourceType", VStr "person");
                           ("name", VStr "Al"); ("email", VStr "a@x")] |})
    as (v & Hfind & _ & _ & Hid).
  - discriminate.
  - discriminate.
  - discriminate.
  - discriminate.
  - reflexivity.
  - unfold agrees. simpl. constructor; [|constructor].
    intros H. discriminate H.
  - reflexivity.
  - exists v. cbn [unwrap c_label c_unique_value c] in Hfind.
    rewrite Hfind. split; [reflexivity | exact Hid].
Defined.

(** ** The drain when the count fails *)

(** When the count of the drain loop brings nothing back (the client has
    no connection, or the server fails the statement), [run_query] returns
    the empty list and the script raises [IndexError] on its first element:
    the drain stops there, and the store is as it was. *)
Theorem drain_raises_when_count_fails
  (client : CosmosGraphClient) (drop_limit : Z) (fuel : nat) (w : world) :
  gremlin_client client = None
  \/ (exists rest, faults w = true :: rest) ->
  exists w',
    Orchestrator.drain_loop (S fuel) client drop_limit w
    = (Raise IndexError, w')
    /\ store w' = store w
    /\ (wire w' = wire w
        \/ wire w' = (wire w ++ ["g.V().count()"])%list).
Proof.
  intros H. cbn [Orchestrator.drain_loop].
  unfold run_query, _execute_query, submit.
  destruct (gremlin_client client) as [h|] eqn:Hc.
  - destruct H as [H|(rest & Hf)]; [discriminate|].
    unfold bind, try_except, send. rewrite Hf. simpl.
    eexists. split; [reflexivity|]. split; [reflexivity|]. now right.
  - run. eexists. split; [reflexivity|]. split; [reflexivity|]. now left.
Qed.

Lemma drain_raises_when_count_fails_witness :
  fst (Orchestrator.drain 5 (init "resourceType")
         (start (holding (some_vertices 3))))
  = Raise IndexError.
Proof.
  destruct (drain_raises_when_count_fails (init "resourceType") 10 4
              (start (holding (some_vertices 3))))
    as (w' & Hrun & _).
  - left. reflexivity.
  - unfold Orchestrator.drain, Orchestrator.drop_limit.
    rewrite Hrun. reflexivity.
Defined.

(** ** The relation extractor *)

Section Extraction.
Import Extractor.


Lemma normalise_projects (rel : json) (r : relationship) :
  normalise rel = Done r <-> projects rel r.
Proof.
  unfold normalise, projects. split.
  - destruct (item rel "id") as [i| |]; cbn [then_]; try discriminate.
    destruct (item rel "source") as [s| |]; cbn [then_]; try discriminate.
    destruct (item s "id") as [si| |] eqn:Hs; cbn [then_];
      try discriminate.
    destruct (item rel "target") as [t| |]; cbn [then_]; try discriminate.
    destruct (item t "id") as [ti| |] eqn:Ht; cbn [then_];
      try discriminate.
    destruct (item rel "type") as [y| |]; cbn [then_]; try discriminate.
    destruct (item y "id") as [yi| |] eqn:Hy; cbn [then_];
      try discriminate.
    intros H. inversion H; subst r. cbn.
    exists i, s, t, y. repeat split; assumption.
  - intros (i & s & t & y & -> & -> & Hs & -> & Ht & -> & Hy).
    cbn [then_]. rewrite Hs. cbn [then_]. rewrite Ht. cbn [then_].
    rewrite Hy. cbn [then_]. now destruct r.
Qed.


Lemma normalise_all_done (relations : list json) :
  forall acc out,
    normalise_all relations acc = Done out
    <-> exists converted,
          out = (acc ++ converted)%list
          /\ Forall2 projects relations converted.
Proof.
  induction relations as [|rel rest IH]; intros acc out; cbn [normalise_all].
  - split.
    + intros H. inversion H. exists []. split; [now rewrite app_nil_r|].
      constructor.
    + intros (converted & -> & H). inversion H. now rewrite app_nil_r.
  - split.
    + destruct (normalise rel) as [r| |] eqn:Hn; cbn [then_];
        try discriminate.
      intros H. apply IH in H. destruct H as (converted & -> & Hall).
      exists (r :: converted). split; [now rewrite <- app_assoc|].
      constructor; [now apply normalise_projects | exact Hall].
    + intros (converted & -> & H).
      inversion H as [|? r ? converted' Hp Hrest]; subst.
      apply normalise_projects in Hp. rewrite Hp. cbn [then_].
      apply IH. exists converted'. split; [now rewrite <- app_assoc|].
      exact Hrest.
Qed.

(** The loop of [get_all_collibra_relations] returns a list exactly when
    each fetched record has the seven fields it reads ([id], and [id] under
    [source], [target] and [type]); the list then holds, record by record
    and in order, the three ids found under [source], [target] and
    [type]. *)
Theorem relations_normalised (relations : list json)
  (out : list relationship) :
  normalise_all relations [] = Done out <-> Forall2 projects relations out.
Proof.
  rewrite normalise_all_done. cbn [app]. split.
  - intros (converted & -> & H). exact H.
  - intros H. now exists out.
Qed.


Variable COLLIBRA_URL : string.

(** A request of the fetch that fails makes [get_all_collibra_relations]
    return the empty list, as a catalog with no relation for the asset
    does: the caller cannot tell the two apart. *)
Theorem failed_fetch_gives_no_relations
  (fuel : nat) (srv : Collibra.server json) (asset_id : value)
  (i : nat) (rq : Collibra.request) :
  nth_error (snd (fst (get_asset_relations COLLIBRA_URL fuel srv asset_id)))
    i = Some rq ->
  Collibra.http_error (srv i rq) \/ srv i rq = Collibra.ConnectionError ->
  get_all_collibra_relations COLLIBRA_URL fuel srv asset_id = Done [].
Proof.
  intros Hi Hfail. unfold get_all_collibra_relations.
  unfold get_asset_relations, Collibra.get_paginated_data in *.
  destruct (paginated_loop_aborts srv fuel 0
              (COLLIBRA_URL ++ "/rest/2.0/relations")
              [("sourceId", asset_id)] [] 1%Z 0%Z [])
    as (new & Htrace & Hnew).
  rewrite Htrace in Hi. cbn [app] in Hi.
  destruct (Hnew i rq Hi Hfail) as [-> _]. reflexivity.
Qed.

End Extraction.


Lemma failed_fetch_gives_no_relations_witness :
  Extractor.get_all_collibra_relations "https://catalog" 9
    (Collibra.scripted
       [ Collibra.Response 200
           {| Collibra.data_results :=
                Some [Extractor.Obj [("id", Extractor.Scalar (VStr "r1"))]];
              Collibra.data_total := Some 5%Z |};
         Collibra.ConnectionError ])
    (VStr "A1")
  = Extractor.Done [].
Proof.
  apply (failed_fetch_gives_no_relations "https://catalog" 9
           (Collibra.scripted
              [ Collibra.Response 200
                  {| Collibra.data_results :=
                       Some [Extractor.Obj
                               [("id", Extractor.Scalar (VStr "r1"))]];
                     Collibra.data_total := Some 5%Z |};
                Collibra.ConnectionError ])
           (VStr "A1") 1
           (Collibra.paginated_request
              "https://catalog/rest/2.0/relations")).
  - reflexivity.
  - right. reflexivity.
Defined.

(** ** The asset loop *)

Section AssetLoop.
Import Extractor Script.

Lemma set_fresh (d : dict) (key : string) (v : value) :
  get d key = None -> set d key v = (d ++ [(key, v)])%list.
Proof.
  induction d as [|[k x] d IH]; simpl; [reflexivity|].
  destruct (String.eqb k key); [discriminate|].
  intros H. now rewrite IH.
Qed.

Lemma get_app_fresh (d : dict) (key key' : string) (v : value) :
  key' <> key -> get (d ++ [(key', v)])%list key = get d key.
Proof.
  intros Hne. induction d as [|[k x] d IH]; simpl.
  - apply String.eqb_neq in Hne. now rewrite Hne.
  - destruct (String.eqb k key); [reflexivity | exact IH].
Qed.

Lemma extract_from (keys : list string) (source data : dict) :
  NoDup keys ->
  (forall key, In key keys -> get data key = None) ->
  fold_left (fun data key =>
               match get source key with
               | Some v => set data key v
               | None => data
               end) keys data
  = (data ++ present keys source)%list.
Proof.
  revert data. induction keys as [|key keys IH]; intros data Hnodup Hfresh.
  - simpl. now rewrite app_nil_r.
  - inversion Hnodup as [|? ? Hnotin Hnodup']; subst.
    cbn [fold_left present flat_map].
    destruct (get source key) as [v|] eqn:Hget.
    + rewrite set_fresh by (apply Hfresh; now left).
      rewrite IH; [now rewrite <- app_assoc | exact Hnodup' |].
      intros key' Hin. rewrite get_app_fresh.
      * apply Hfresh. now right.
      * intros ->. contradiction.
    + cbn [app]. apply IH; [exact Hnodup'|].
      intros key' Hin. apply Hfresh. now right.
Qed.

(** With keys that are all different, the extraction keeps the fields the
    keys name, in the order of the keys. *)
Lemma extract_present (keys : list string) (source : dict) :
  NoDup keys -> extract keys source = present keys source.
Proof.
  intros Hnodup. unfold extract.
  rewrite extract_from; [reflexivity | exact Hnodup | reflexivity].
Qed.

Lemma present_In (keys : list string) (source : dict) kv :
  In kv (present keys source)
  <-> In (fst kv) keys /\ get source (fst kv) = Some (snd kv).
Proof.
  unfold present. rewrite in_flat_map. split.
  - intros (key & Hin & Hkv).
    destruct (get source key) as [v|] eqn:Hget; [|destruct Hkv].
    destruct Hkv as [<-|[]]. now split.
  - intros [Hin Hget]. exists (fst kv). split; [exact Hin|].
    rewrite Hget. left. now destruct kv.
Qed.

Lemma get_present (keys : list string) (source : dict) (key : string) :
  In key keys -> get (present keys source) key = get source key.
Proof.
  intros Hin. induction keys as [|k keys IH]; [destruct Hin|].
  cbn [present flat_map].
  destruct (String.eqb k key) eqn:E.
  - apply String.eqb_eq in E. subst k.
    destruct (get source key) as [v|] eqn:Hget.
    + simpl. now rewrite String.eqb_refl.
    + simpl. destruct (in_dec string_dec key keys) as [Hin'|Hnotin].
      * now apply IH.
      * clear - Hnotin Hget.
        induction keys as [|k keys IH]; [reflexivity|].
        cbn [flat_map].
        destruct (string_dec k key) as [->|Hne].
        -- exfalso. apply Hnotin. now left.
        -- destruct (get source k) as [v|]; simpl.
           ++ apply String.eqb_neq in Hne. rewrite Hne.
              apply IH. intros H. apply Hnotin. now right.
           ++ apply IH. intros H. apply Hnotin. now right.
  - apply String.eqb_neq in E.
    destruct Hin as [Heq|Hin]; [contradiction|].
    destruct (get source k) as [v|]; simpl.
    + apply String.eqb_neq in E. rewrite E. now apply IH.
    + now apply IH.
Qed.

Lemma asset_keys_NoDup : NoDup asset_keys_to_extract.
Proof.
  unfold asset_keys_to_extract.
  repeat (constructor; [simpl; intuition discriminate|]). constructor.
Qed.

(** For every asset, the loop first sends one statement, that adds a
    vertex labelled by the [resourceType] of the asset ([Asset] when it has
    none) with one property clause for each of the thirteen listed fields
    the asset has, in the order of the list; a field that is not listed
    never reaches the vertex. The blocks of the three sub-objects run
    after it. *)
Theorem asset_vertex_statement
  (client : CosmosGraphClient) (a : asset) (w : world) :
  connected client ->
  let written := present asset_keys_to_extract (a_fields a) in
  let label := match get (a_fields a) "resourceType" with
               | Some v => str v
               | None => "Asset"
               end in
  exists w1,
    wire w1
    = (wire w ++ [ ("g.addV('" ++ label ++ "')"
                    ++ clauses format_property_step written)%string ])%list
    /\ process_asset client a w
       = andthen (when_present (a_domain a)
                    (belongs_to client a "domain" "Domain"
                       domain_keys_to_extract)) (fun _ =>
         andthen (when_present (a_type a)
                    (belongs_to client a "type" "Type"
                       type_keys_to_extract)) (fun _ =>
         when_present (a_status a)
           (belongs_to client a "status" "Status"
              status_keys_to_extract))) w1
    /\ forall kv, In kv written <->
                  In (fst kv) asset_keys_to_extract
                  /\ get (a_fields a) (fst kv) = Some (snd kv).
Proof.
  intros [Hc Hg] written label.
  unfold process_asset. cbv zeta.
  rewrite (extract_present _ _ asset_keys_NoDup). fold written.
  assert (asset_label written = label) as ->.
  { unfold asset_label, written, label. rewrite get_present; [reflexivity|].
    simpl. tauto. }
  unfold create_vertex. rewrite Hg.
  destruct (execute_query_returns client
              {| q_text := create_vertex_query label (Some written);
                 q_sem := AddV label (items (Some written)) |} w)
    as (answers & w1 & Hrun & Hwire).
  exists w1. split; [|split].
  - rewrite Hwire, Hc. cbn [q_text].
    rewrite create_vertex_text. reflexivity.
  - unfold andthen at 1, call. rewrite Hrun. reflexivity.
  - intros kv. apply present_In.
Qed.


(** What stops the loop. Once the vertex of an asset has been sent: a
    sub-object [domain] that is null raises [TypeError]; an upsert of the
    sub-object that returns [None] (its [id] is missing or empty, the
    client has no connection, the store failed) raises [TypeError] at
    [domain_vertex['id']]; an asset without [id] raises [KeyError]. In each
    case the loop ends there: the edge is not sent, and the assets that
    follow are not processed. *)
Theorem asset_loop_stops_on_failure
  (client : CosmosGraphClient) (a : asset) (rest : list asset)
  (w w1 : world) (answers : list answer) :
  let asset_data := extract asset_keys_to_extract (a_fields a) in
  create_vertex client (asset_label asset_data) (Some asset_data) w
  = (Return answers, w1) ->
  (a_domain a = Some None ->
   asset_loop client (a :: rest) w = (Failed TypeError, w1))
  /\ (forall obj r w2,
        a_domain a = Some (Some obj) ->
        let data := extract domain_keys_to_extract (fields_of obj) in
        upsert_vertex client (label_or data "Domain")
          (text (get data "id")) (Some "id") (text (get data "id")) data w1
        = (Return r, w2) ->
        (get (a_fields a) "id" = None ->
         asset_loop client (a :: rest) w = (Failed (KeyError "id"), w2))
        /\ (get (a_fields a) "id" <> None -> r = None ->
            asset_loop client (a :: rest) w = (Failed TypeError, w2))).
Proof.
  intros asset_data Hcreate. split.
  - intros Hdomain. cbn [asset_loop]. unfold process_asset.
    fold asset_data. unfold andthen at 1 2, call at 1.
    rewrite Hcreate, Hdomain. reflexivity.
  - intros obj r w2 Hdomain data Hupsert.
    assert (forall A (k : unit -> S A),
              andthen (when_present (a_domain a)
                         (belongs_to client a "domain" "Domain"
                            domain_keys_to_extract)) k w1
              = match get (a_fields a) "id" with
                | None => (Failed (KeyError "id"), w2)
                | Some to_id =>
                    andthen (andthen (vertex_id r) (fun from_id =>
                             andthen (call (create_edge client from_id
                                              (str to_id)
                                              ("belongsTo_" ++ "domain")
                                              (Some [("since",
                                                      created_on a)])))
                               (fun _ => pure tt))) k w2
                end) as Hblock.
    { intros A k. rewrite Hdomain. cbn [when_present].
      unfold belongs_to. fold data.
      unfold andthen at 1 2, call at 1. rewrite Hupsert.
      unfold asset_id. destruct (get (a_fields a) "id"); reflexivity. }
    split.
    + intros Hid. cbn [asset_loop]. unfold process_asset. fold asset_data.
      unfold andthen at 1 2, call at 1. rewrite Hcreate.
      rewrite Hblock, Hid. reflexivity.
    + intros Hid ->. cbn [asset_loop]. unfold process_asset.
      fold asset_data.
      unfold andthen at 1 2, call at 1. rewrite Hcreate.
      rewrite Hblock. destruct (get (a_fields a) "id"); [|congruence].
      reflexivity.
Qed.

End AssetLoop.

Lemma asset_vertex_statement_witness :
  wire (snd (Script.process_asset (connect (init "resourceType"))
               {| Script.a_fields :=
                    [("name", VStr "Orders"); ("id", VStr "A1");
                     ("comment", VStr "not listed");
                     ("resourceType", VStr "Table"); ("system", VBool false)];
                  Script.a_domain := None; Script.a_type := None;
                  Script.a_status := None |}
               (start (holding []))))
  = [ "g.addV('Table').property('id', 'A1').property('system', false).property('resourceType', 'Table').property('name', 'Orders')" ].
Proof.
  destruct (asset_vertex_statement (connect (init "resourceType"))
              {| Script.a_fields :=
                   [("name", VStr "Orders"); ("id", VStr "A1");
                    ("comment", VStr "not listed");
                    ("resourceType", VStr "Table"); ("system", VBool false)];
                 Script.a_domain := None; Script.a_type := None;
                 Script.a_status := None |}
              (start (holding [])))
    as (w1 & Hwire & Hrun & _).
  - split; reflexivity.
  - rewrite Hrun. cbn. rewrite Hwire. reflexivity.
Defined.


Lemma asset_loop_stops_on_failure_witness :
  let client := connect (init "resourceType") in
  let a := {| Script.a_fields := [("id", VStr "A1");
                                  ("resourceType", VStr "Table")];
              Script.a_domain := Some (Some [("name", Some "Sales")]);
              Script.a_type := None; Script.a_status := None |} in
  let b := {| Script.a_fields := [("id", VStr "A2")];
              Script.a_domain := None; Script.a_type := None;
              Script.a_status := None |} in
  fst (Script.asset_loop client [a; b] (start (holding [])))
  = Extractor.Failed Extractor.TypeError.
Proof.
  intros client a b.
  destruct (asset_loop_stops_on_failure client a [b] (start (holding []))
              (snd (create_vertex client "Table"
                      (Some [("id", VStr "A1");
                             ("resourceType", VStr "Table")])
                      (start (holding []))))
              [AVertex {| v_id := "A1"; v_label := "Table";
                          v_props := [("id", VStr "A1");
                                      ("resourceType", VStr "Table")] |}])
    as [_ Hfail].
  - reflexivity.
  - destruct (Hfail [("name", Some "Sales")] None
                (logged UpsertArgumentsRequired
                   (snd (create_vertex client "Table"
                           (Some [("id", VStr "A1");
                                  ("resourceType", VStr "Table")])
                           (start (holding []))))))
      as [_ Hnone].
    + reflexivity.
    + reflexivity.
    + rewrite Hnone; [reflexivity | discriminate | reflexivity].
Defined.

(** The scenario of one asset with its domain, run on an empty store: the
    vertex of the asset, the vertex of the domain, upserted, and the edge
    from the domain to the asset. *)
Example asset_with_domain_run :
  let client := connect (init "resourceType") in
  let a := {| Script.a_fields := [("id", VStr "A1");
                                  ("resourceType", VStr "Table")];
              Script.a_domain :=
                Some (Some [("id", Some "D1");
                            ("resourceType", Some "Domain")]);
              Script.a_type := None; Script.a_status := None |} in
  let w' := snd (Script.asset_loop client [a]
                   (start (collection "resourceType" []))) in
  map (fun v => (v_id v, v_label v)) (vertices (store w'))
  = [("A1", "Table"); ("D1", "Domain")]
  /\ map (fun e => (e_from e, e_label e, e_to e)) (edges (store w'))
     = [("D1", "belongsTo_domain", "A1")]
  /\ wire w'
     = [ "g.addV('Table').property('id', 'A1').property('resourceType', 'Table')";
         "g.V().hasLabel('Domain').has('resourceType', 'Domain').has('id', 'D1').limit(1)";
         "g.addV('Domain').property('id', 'D1').property('resourceType', 'Domain')";
         "g.V('D1').addE('belongsTo_domain').to(g.V('A1')).property('since', 'unknown')" ].
Proof. repeat split. Qed.

(** ** What the fetchers return *)

Section FetchReturns.
Import Collibra.

Context {R : Type}.
Variable COLLIBRA_URL : string.
Variable srv : server R.

Lemma assets_loop_received (fuel : nat) :
  forall sent offset assets response trace0 l,
    fst (assets_loop COLLIBRA_URL fuel srv sent offset assets response
           trace0) = Return l ->
    exists new,
      snd (assets_loop COLLIBRA_URL fuel srv sent offset assets response
             trace0) = (trace0 ++ new)%list
      /\ l = (assets ++ received srv sent new)%list.
Proof.
  induction fuel as [|fuel IH]; intros sent offset assets response trace0 l;
    cbn [assets_loop].
  - discriminate.
  - set (rq0 := assets_request COLLIBRA_URL offset assets_limit).
    destruct (srv sent rq0) as [|status_code data] eqn:Hreply.
    + destruct response as [r|]; cbn [fst snd]; [|discriminate].
      intros H. inversion H; subst l. exists [rq0].
      split; [reflexivity|]. cbn [received]. rewrite Hreply.
      now rewrite app_nil_r.
    + destruct (is_error_status status_code) eqn:Hstatus.
      * cbn [fst snd]. intros H. inversion H; subst l. exists [rq0].
        split; [reflexivity|]. cbn [received].
        rewrite Hreply, Hstatus. now rewrite app_nil_r.
      * destruct (len (assets ++ or_empty (data_results data))
                  >=? or_zero (data_total data))%Z.
        -- cbn [fst snd]. intros H. inversion H; subst l. exists [rq0].
           split; [reflexivity|]. cbn [received].
           rewrite Hreply, Hstatus. now rewrite app_nil_r.
        -- intros H. apply IH in H. destruct H as (new & Htrace & ->).
           exists (rq0 :: new). split.
           ++ rewrite Htrace, <- app_assoc. reflexivity.
           ++ cbn [received]. rewrite Hreply, Hstatus, app_assoc.
              reflexivity.
Qed.

Lemma paginated_loop_received (fuel : nat) :
  forall sent endpoint params all_results total offset trace0 l,
    fst (fst (paginated_loop fuel srv sent endpoint params all_results total
                offset trace0)) = Return l ->
    exists new,
      snd (fst (paginated_loop fuel srv sent endpoint params all_results
                  total offset trace0)) = (trace0 ++ new)%list
      /\ (l = (all_results ++ received srv sent new)%list \/ l = []).
Proof.
  induction fuel as [|fuel IH];
    intros sent endpoint params all_results total offset trace0 l;
    cbn [paginated_loop];
    (destruct (len all_results <? total)%Z;
     [|cbn [fst snd]; intros H; inversion H; exists [];
       split; [now rewrite app_nil_r|]; left; cbn [received];
       now rewrite app_nil_r]).
  - discriminate.
  - set (rq0 := paginated_request endpoint).
    destruct (srv sent rq0) as [|status_code data] eqn:Hreply.
    + cbn [fst snd]. intros H. inversion H. exists [rq0].
      split; [reflexivity | now right].
    + destruct (is_error_status status_code) eqn:Hstatus.
      * cbn [fst snd]. intros H. inversion H. exists [rq0].
        split; [reflexivity | now right].
      * intros H. apply IH in H. destruct H as (new & Htrace & Hl).
        exists (rq0 :: new). split.
        -- rewrite Htrace, <- app_assoc. reflexivity.
        -- destruct Hl as [-> | ->]; [left | now right].
           cbn [received]. rewrite Hreply, Hstatus, app_assoc.
           reflexivity.
Qed.

(** Whatever the catalog answers, what
    [get_all_collibra_assets_basic_auth] returns is what it received: the
    records of the successful replies to its requests, in the order of
    arrival, none lost and none added. [get_paginated_data] returns what it
    received, or the empty list. *)
Theorem fetch_returns_what_it_received
  (fuel : nat) (endpoint : string) (filters : dict) :
  (forall l,
     fst (get_all_collibra_assets_basic_auth COLLIBRA_URL fuel srv)
     = Return l ->
     l = received srv 0
           (snd (get_all_collibra_assets_basic_auth COLLIBRA_URL fuel srv)))
  /\ (forall l,
        fst (fst (get_paginated_data fuel srv endpoint filters)) = Return l ->
        l = received srv 0
              (snd (fst (get_paginated_data fuel srv endpoint filters)))
        \/ l = []).
Proof.
  split; intros l H.
  - unfold get_all_collibra_assets_basic_auth in *.
    destruct (assets_loop_received fuel 0 0%Z [] None [] l H)
      as (new & -> & ->). reflexivity.
  - unfold get_paginated_data in *.
    destruct (paginated_loop_received fuel 0 endpoint filters [] 1%Z 0%Z []
                l H) as (new & -> & Hl). exact Hl.
Qed.

(** A transport error on the very first request of
    [get_all_collibra_assets_basic_auth] is not turned into a result: the
    handler reads [response], no reply has bound it yet, and the function
    raises [UnboundLocalError]. *)
Theorem assets_fetch_raises_on_first_transport_error (fuel : nat) :
  srv 0 (assets_request COLLIBRA_URL 0 assets_limit) = ConnectionError ->
  get_all_collibra_assets_basic_auth COLLIBRA_URL (S fuel) srv
  = (Raise UnboundLocalError, [assets_request COLLIBRA_URL 0 assets_limit]).
Proof.
  intros H. unfold get_all_collibra_assets_basic_auth.
  cbn [assets_loop]. now rewrite H.
Qed.

End FetchReturns.

Lemma fetch_returns_what_it_received_witness :
  exists l,
    fst (Collibra.get_all_collibra_assets_basic_auth "https://catalog" 9
           two_pages_then_503) = Return l
    /\ l = Collibra.received two_pages_then_503 0
             (snd (Collibra.get_all_collibra_assets_basic_auth
                     "https://catalog" 9 two_pages_then_503)).
Proof.
  eexists. split; [vm_compute; reflexivity|].
  apply (proj1 (fetch_returns_what_it_received "https://catalog"
                  two_pages_then_503 9 "" [])).
  reflexivity.
Defined.

Lemma assets_fetch_raises_on_first_transport_error_witness :
  fst (Collibra.get_all_collibra_assets_basic_auth "https://catalog" 1
         (Collibra.scripted (R := nat) []))
  = Raise UnboundLocalError.
Proof.
  rewrite (assets_fetch_raises_on_first_transport_error "https://catalog"
             (Collibra.scripted (R := nat) []) 0); reflexivity.
Defined.

(** ** The statements of [create_vertex] and [create_edge] *)

(** On a connected client [create_vertex] and [create_edge] each send
    exactly one statement, with no lookup before it, and return: the
    addition of a vertex of the label, or of an edge of the label between
    the two ids, followed by one property clause per entry of the
    properties, in their order. *)
Theorem create_sends_one_statement
  (self : CosmosGraphClient) (w : world) :
  connected self ->
  (forall label properties,
     exists answers w',
       create_vertex self label properties w = (Return answers, w')
       /\ wire w'
          = (wire w
             ++ [ ("g.addV('" ++ label ++ "')"
                   ++ clauses format_property_step (items properties))
                  %string ])%list)
  /\ (forall from_id to_id label properties,
        exists answers w',
          create_edge self from_id to_id label properties w
          = (Return answers, w')
          /\ wire w'
             = (wire w
                ++ [ ("g.V('" ++ from_id ++ "')"
                      ++ ".addE('" ++ label ++ "')"
                      ++ ".to(g.V('" ++ to_id ++ "'))"
                      ++ clauses format_property_step (items properties))
                     %string ])%list).
Proof.
  intros Hconn. pose proof Hconn as [Hc Hg]. split.
  - intros label properties. unfold create_vertex. rewrite Hg.
    destruct (execute_query_returns self
                {| q_text := create_vertex_query label properties;
                   q_sem := AddV label (items properties) |} w)
      as (answers & w' & Hrun & Hwire).
    exists answers, w'. split; [exact Hrun|].
    rewrite Hwire, Hc. cbn [q_text]. now rewrite create_vertex_text.
  - intros from_id to_id label properties.
    destruct (create_edge_returns self from_id to_id label properties w)
      as (answers & w' & Hrun & Hwire).
    exists answers, w'. split; [exact Hrun|].
    rewrite (Hwire Hconn). now rewrite create_edge_text.
Qed.

Lemma create_sends_one_statement_witness :
  exists answers w',
    create_edge (connect (init "resourceType")) "A1" "A2" "relatedTo"
      (Some [("relationTypeId", VStr "R1"); ("weight", VInt 3)])
      (start (holding [])) = (Return answers, w')
    /\ wire w'
       = [ "g.V('A1').addE('relatedTo').to(g.V('A2')).property('relationTypeId', 'R1').property('weight', 3)" ].
Proof.
  destruct (create_sends_one_statement (connect (init "resourceType"))
              (start (holding []))) as [_ Hedge].
  - split; reflexivity.
  - destruct (Hedge "A1" "A2" "relatedTo"
                (Some [("relationTypeId", VStr "R1"); ("weight", VInt 3)]))
      as (answers & w' & Hrun & Hwire).
    exists answers, w'. split; [exact Hrun|]. rewrite Hwire. reflexivity.
Defined.
